(** * gdsfactory: configuration layers and route information

    A shallow embedding of [src/pp/config.py] and
    [src/gdsfactory/route_info.py].

    Python values are one inductive universe [pyval]; flat dictionaries
    that the code builds key by key ([route_info]'s result, [CONFIG],
    keyword arguments) are [gmap string pyval]; nested dictionaries that
    are walked recursively (OmegaConf configurations, structures handed
    to the JSON writer) are association lists in insertion order.
    Exceptions are values of [exn], carried by the result type [res]. *)

From Stdlib Require Import ZArith QArith Lia.
From Stdlib Require Reals Lra Qreals.
From stdpp Require Import gmap strings list fin_maps pretty sorting.

#[local] Set Warnings "-register-all".
Local Open Scope string_scope.
Local Open Scope Z_scope.

(** ** Python values *)

Module Py.

(** Exceptions raised by the modelled code, by class. *)
Inductive exn :=
  | TypeError (msg : string)
  | ValueError (msg : string)
  | ImportError (msg : string)
  | InvalidGitRepositoryError (msg : string)
  | FileNotFoundError (msg : string)
  | ParserError (msg : string)
  | AttributeError (msg : string)
  | ZeroDivisionError (msg : string)
  | OtherError (cls msg : string).

Inductive res (A : Type) :=
  | Ok (a : A)
  | Raise (e : exn).
Arguments Ok {A} a.
Arguments Raise {A} e.

#[global] Instance res_ret : MRet res := λ A a, Ok a.
#[global] Instance res_bind : MBind res := λ A B f m,
  match m with
  | Ok a => f a
  | Raise e => Raise e
  end.

Lemma bind_Ok {A B} (m : res A) (f : A → res B) (b : B) :
  m ≫= f = Ok b → ∃ a, m = Ok a ∧ f a = Ok b.
Proof. destruct m as [a|e]; [by exists a | done]. Qed.

(** Dictionary keys: a string, an int, or some other hashable object
    (a path, a tuple, ...) of which only the class name and the printed
    form are kept. *)
Inductive pykey :=
  | KStr (s : string)
  | KInt (z : Z)
  | KObj (cls repr : string).

(** [PFloat q] is the finite float denoting the rational [q]; [PPath]
    is a [pathlib.Path], kept as its parts; [PObj] is an instance of
    any other class, kept as the printed form of its type, its own
    printed form and its truth value. *)
Inductive pyval :=
  | PNone
  | PBool (b : bool)
  | PInt (z : Z)
  | PFloat (q : Q)
  | PStr (s : string)
  | PPath (parts : list string)
  | PList (l : list pyval)
  | PDict (d : list (pykey * pyval))
  | PObj (ty repr : string) (truth : bool).

#[global] Instance pykey_eq_dec : EqDecision pykey.
Proof. solve_decision. Defined.

(** Induction over values, through lists and dictionary values. *)
Lemma pyval_nested_ind (P : pyval → Prop) :
  P PNone →
  (∀ b, P (PBool b)) →
  (∀ z, P (PInt z)) →
  (∀ q, P (PFloat q)) →
  (∀ s, P (PStr s)) →
  (∀ p, P (PPath p)) →
  (∀ l, Forall P l → P (PList l)) →
  (∀ d, Forall (λ kv, P kv.2) d → P (PDict d)) →
  (∀ ty repr t, P (PObj ty repr t)) →
  ∀ v, P v.
Proof.
  intros HNone HBool HInt HFloat HStr HPath HList HDict HObj.
  fix IH 1. intros [ | b | z | q | s | p | l | d | ty repr t].
  1-6, 9: clear IH; auto.
  - apply HList. induction l as [|x l IHl]; [constructor|].
    constructor; [apply IH | exact IHl].
  - apply HDict. induction d as [|[k x] d IHd]; [constructor|].
    constructor; [apply IH | exact IHd].
Qed.

(** [bool(v)]: the truth value Python's [if], [or] and [and] test. *)
Definition truthy (v : pyval) : bool :=
  match v with
  | PNone => false
  | PBool b => b
  | PInt z => negb (z =? 0)
  | PFloat q => negb (Qeq_bool q 0)
  | PStr s => negb (String.eqb s "")
  | PPath _ => true
  | PList l => match l with [] => false | _ => true end
  | PDict d => match d with [] => false | _ => true end
  | PObj _ _ t => t
  end.

(** [a or b] *)
Definition py_or (a b : pyval) : pyval := if truthy a then a else b.

(** [str(p)] of a path: its parts joined by the separator. *)
Definition path_str (parts : list string) : string :=
  match parts with
  | "/" :: rest => "/" +:+ String.concat "/" rest
  | _ => String.concat "/" parts
  end.

(** [p / name] *)
Definition path_join (parts : list string) (name : string) : list string :=
  parts ++ [name].

Section Printing.
(** [str] of a float and of a container is left to the interpreter. *)
Variable float_repr : Q → string.
Variable container_repr : pyval → string.

(** [str(v)], which is also what an f-string field [{v}] prints. *)
Definition py_str (v : pyval) : string :=
  match v with
  | PNone => "None"
  | PBool true => "True"
  | PBool false => "False"
  | PInt z => pretty z
  | PFloat q => float_repr q
  | PStr s => s
  | PPath p => path_str p
  | PList _ | PDict _ => container_repr v
  | PObj _ repr _ => repr
  end.

(** [str(type(v))] *)
Definition py_type (v : pyval) : string :=
  match v with
  | PNone => "<class 'NoneType'>"
  | PBool _ => "<class 'bool'>"
  | PInt _ => "<class 'int'>"
  | PFloat _ => "<class 'float'>"
  | PStr _ => "<class 'str'>"
  | PPath _ => "<class 'pathlib.PosixPath'>"
  | PList _ => "<class 'list'>"
  | PDict _ => "<class 'dict'>"
  | PObj ty _ _ => ty
  end.
End Printing.

End Py.
Import Py.

(** ** [route_info.py] *)

Module RouteInfo.

(** What the cross-section registry returns: an object with an [info]
    dictionary. *)
Record CrossSection := { info : gmap string pyval }.

Section Builder.
Variable float_repr : Q → string.
Variable container_repr : pyval → string.
Local Abbreviation str := (py_str float_repr container_repr).

(** [f"{cs_type}_length"] and [f"{cs_type}_taper_length"] *)
Definition length_key (cs_type : pyval) : string :=
  str cs_type +:+ "_length".
Definition taper_length_key (cs_type : pyval) : string :=
  str cs_type +:+ "_taper_length".

(** The body of [route_info]: [kwargs] holds the keywords left over
    after the four named parameters are bound. *)
Definition route_info (cs_type length length_eff taper : pyval)
    (kwargs : gmap string pyval) : gmap string pyval :=
  let length_eff :=
    match length_eff with PNone => length | _ => length_eff end in
  let d : gmap string pyval :=
    <["weight" := length_eff]>
      (<[length_key cs_type := length_eff]>
        (<["length" := length_eff]>
          (<["type" := cs_type]> ∅))) in
  let d := if truthy taper
           then <[taper_length_key cs_type := length]> d else d in
  kwargs ∪ d.

(** The call [route_info(cs_type, length=length, length_eff=length_eff,
    **kw)]: a keyword of [kw] named like a parameter that is already
    given is an error, [taper] is taken from [kw] when it is there,
    and the rest of [kw] arrives as [kwargs]. *)
Definition call_route_info (cs_type length length_eff : pyval)
    (kw : gmap string pyval) : res (gmap string pyval) :=
  if bool_decide (is_Some (kw !! "cs_type")) then
    Raise (TypeError "route_info() got multiple values for argument 'cs_type'")
  else if bool_decide (is_Some (kw !! "length")) then
    Raise (TypeError "route_info() got multiple values for keyword argument 'length'")
  else if bool_decide (is_Some (kw !! "length_eff")) then
    Raise (TypeError "route_info() got multiple values for keyword argument 'length_eff'")
  else
    Ok (route_info cs_type length length_eff
          (default (PBool false) (kw !! "taper")) (delete "taper" kw)).

(** The registry and the printed form of a specification are outside
    this repository. *)
Variable CrossSectionSpec : Type.
Variable get_cross_section : CrossSectionSpec → res CrossSection.
Variable spec_str : CrossSectionSpec → string.

Definition route_info_from_cs (cs : CrossSectionSpec)
    (length length_eff : pyval) (kwargs : gmap string pyval)
    : res (gmap string pyval) :=
  x ← get_cross_section cs;
  let cs_type := default (PStr (spec_str cs)) (info x !! "type") in
  call_route_info cs_type length length_eff kwargs.

(** The convenience variant as the specification words it: the type
    is the [type] attribute of the resolved cross-section, or the
    string form of the specification when there is none, and the
    primary builder is called with it. *)
Definition resolved_type (cs : CrossSectionSpec) (x : CrossSection) : pyval :=
  match info x !! "type" with
  | Some t => t
  | None => PStr (spec_str cs)
  end.

Definition route_info_from_cs_spec (cs : CrossSectionSpec)
    (length length_eff : pyval) (kwargs : gmap string pyval)
    : res (gmap string pyval) :=
  match get_cross_section cs with
  | Raise e => Raise e
  | Ok x => call_route_info (resolved_type cs x) length length_eff kwargs
  end.

(** *** Keys never collide *)

Lemma length_append (a b : string) :
  String.length (a +:+ b) = (String.length a + String.length b)%nat.
Proof. induction a as [|c a IH]; simpl; [done | by rewrite IH]. Qed.

Lemma suffixed_ne (a b c : string) :
  (String.length c < String.length b)%nat → a +:+ b ≠ c.
Proof.
  intros Hlt Heq. apply (f_equal String.length) in Heq.
  rewrite length_append in Heq. lia.
Qed.

Lemma length_key_base cs :
  length_key cs ≠ "type" ∧ length_key cs ≠ "length" ∧ length_key cs ≠ "weight".
Proof. repeat split; apply suffixed_ne; simpl; lia. Qed.

Lemma taper_key_base cs :
  taper_length_key cs ≠ "type" ∧ taper_length_key cs ≠ "length"
  ∧ taper_length_key cs ≠ "weight" ∧ taper_length_key cs ≠ length_key cs.
Proof.
  repeat split; try (apply suffixed_ne; simpl; lia).
  unfold taper_length_key, length_key. intros Heq.
  apply (inj (String.app _)) in Heq. discriminate.
Qed.

(** The four base entries, before the taper entry and the extras. *)
Definition base_dict (cs_type length_eff : pyval) : gmap string pyval :=
  <["weight" := length_eff]>
    (<[length_key cs_type := length_eff]>
      (<["length" := length_eff]>
        (<["type" := cs_type]> ∅))).

Lemma base_dict_lookup cs e :
  base_dict cs e !! "type" = Some cs
  ∧ base_dict cs e !! "length" = Some e
  ∧ base_dict cs e !! length_key cs = Some e
  ∧ base_dict cs e !! "weight" = Some e.
Proof.
  destruct (length_key_base cs) as (H1 & H2 & H3). unfold base_dict.
  repeat split; by simplify_map_eq.
Qed.

Lemma base_dict_other cs e k :
  k ≠ "type" → k ≠ "length" → k ≠ length_key cs → k ≠ "weight" →
  base_dict cs e !! k = None.
Proof. intros. unfold base_dict. by simplify_map_eq. Qed.

Lemma route_info_unfold cs l e tp kw :
  route_info cs l e tp kw =
  kw ∪
    (let e' := match e with PNone => l | _ => e end in
     if truthy tp then <[taper_length_key cs := l]> (base_dict cs e')
     else base_dict cs e').
Proof. reflexivity. Qed.

Lemma route_info_kwargs_hit cs l e tp (kw : gmap string pyval) k v :
  kw !! k = Some v → route_info cs l e tp kw !! k = Some v.
Proof. intros Hk. unfold route_info. by apply lookup_union_Some_l. Qed.

Lemma route_info_kwargs_miss cs l e tp (kw : gmap string pyval) k :
  kw !! k = None → route_info cs l e tp kw !! k = route_info cs l e tp ∅ !! k.
Proof.
  intros Hk. unfold route_info.
  rewrite lookup_union_r by done. by rewrite (left_id_L ∅ (∪)).
Qed.

(** C2. With [taper] false, no extras and [length_eff] omitted, the
    result for a type string [t] and a length [L] holds [type = t],
    [length = L], ["{t}_length" = L] and [weight = L], four distinct
    keys and no other; and in every call an omitted [length_eff] stands
    for the physical length. *)
Theorem route_info_straight (t : string) (L : pyval) :
  let d := route_info (PStr t) L PNone (PBool false) ∅ in
  d !! "type" = Some (PStr t)
  ∧ d !! "length" = Some L
  ∧ d !! (t +:+ "_length") = Some L
  ∧ d !! "weight" = Some L
  ∧ (∀ k, k ≠ "type" → k ≠ "length" → k ≠ t +:+ "_length" → k ≠ "weight" →
       d !! k = None)
  ∧ size d = 4%nat
  ∧ (∀ cs l tp kw,
       route_info cs l PNone tp kw = route_info cs l l tp kw).
Proof.
  intros d. subst d. rewrite route_info_unfold. simpl.
  rewrite (left_id_L ∅ (∪)).
  destruct (base_dict_lookup (PStr t) L) as (Ht & Hl & Htl & Hw).
  destruct (length_key_base (PStr t)) as (N1 & N2 & N3).
  repeat split; try assumption.
  - intros k ? ? ? ?. by apply base_dict_other.
  - unfold base_dict. change (length_key (PStr t)) with (t +:+ "_length") in *.
    rewrite !map_size_insert_None; [by rewrite map_size_empty | by simplify_map_eq ..].
  - intros cs l tp kw. rewrite !route_info_unfold. by destruct l.
Qed.

(** C3. With [taper] true, an effective length [E] and no extras,
    ["{t}_taper_length"] is the physical length [L] while [length],
    ["{t}_length"] and [weight] are [E]; with [taper] false the taper
    key is absent. *)
Theorem route_info_taper (cs L E : pyval) :
  E ≠ PNone →
  let d := route_info cs L E (PBool true) ∅ in
  d !! taper_length_key cs = Some L
  ∧ d !! "length" = Some E
  ∧ d !! length_key cs = Some E
  ∧ d !! "weight" = Some E
  ∧ d !! "type" = Some cs
  ∧ route_info cs L E (PBool false) ∅ !! taper_length_key cs = None.
Proof.
  intros HE d. subst d. rewrite !route_info_unfold. simpl.
  rewrite !(left_id_L ∅ (∪)).
  assert (match E with PNone => L | _ => E end = E) as -> by by destruct E.
  destruct (base_dict_lookup cs E) as (Ht & Hl & Htl & Hw).
  destruct (taper_key_base cs) as (N1 & N2 & N3 & N4).
  repeat split.
  - by rewrite lookup_insert_eq.
  - by rewrite lookup_insert_ne.
  - by rewrite lookup_insert_ne.
  - by rewrite lookup_insert_ne.
  - by rewrite lookup_insert_ne.
  - by apply base_dict_other.
Qed.


(** C5. [route_info_from_cs] returns what the primary builder returns
    when called with the type read from the resolved cross-section's
    [info], or with the specification's string form when [info] has no
    [type]; an error of the registry or of the call is the same on both
    sides.  When the registry answers and no extra is named like a
    parameter that is already given, that is the builder's dictionary
    for this type, the same lengths and the same extras. *)
Theorem route_info_from_cs_delegates cs length length_eff kwargs :
  route_info_from_cs cs length length_eff kwargs
  = route_info_from_cs_spec cs length length_eff kwargs
  ∧ (∀ x, get_cross_section cs = Ok x →
       kwargs !! "cs_type" = None → kwargs !! "length" = None →
       kwargs !! "length_eff" = None →
       route_info_from_cs cs length length_eff kwargs
       = Ok (route_info (resolved_type cs x) length length_eff
               (default (PBool false) (kwargs !! "taper"))
               (delete "taper" kwargs))).
Proof.
  unfold route_info_from_cs, route_info_from_cs_spec, resolved_type. split.
  - destruct (get_cross_section cs) as [x|e]; simpl; [|done].
    by destruct (info x !! "type").
  - intros x -> H1 H2 H3. simpl. unfold call_route_info.
    rewrite H1, H2, H3. simpl. by destruct (info x !! "type").
Qed.
End Builder.

(** *** The builder on the inputs of the specification's examples *)

Definition plain_repr : Q → string := λ _, "<float>".
Definition plain_container_repr : pyval → string := λ _, "<container>".
Definition build := route_info plain_repr plain_container_repr.

Example build_strip_straight :
  build (PStr "strip") (PInt 10) PNone (PBool false) ∅
  = {[ "type" := PStr "strip"; "length" := PInt 10;
       "strip_length" := PInt 10; "weight" := PInt 10 ]}.
Proof. apply map_eq. intros k. vm_compute. reflexivity. Qed.

Example build_strip_taper :
  build (PStr "strip") (PInt 10) (PInt 8) (PBool true) ∅
  = {[ "type" := PStr "strip"; "length" := PInt 8;
       "strip_length" := PInt 8; "weight" := PInt 8;
       "strip_taper_length" := PInt 10 ]}.
Proof. apply map_eq. intros k. vm_compute. reflexivity. Qed.

Example build_rib_loss :
  build (PStr "rib") (PInt 5) PNone (PBool false) {[ "loss" := PFloat (1 # 10) ]}
  = {[ "type" := PStr "rib"; "length" := PInt 5; "rib_length" := PInt 5;
       "weight" := PInt 5; "loss" := PFloat (1 # 10) ]}.
Proof. apply map_eq. intros k. vm_compute. reflexivity. Qed.

Example build_type_overwritten :
  build (PStr "rib") (PInt 5) PNone (PBool false) {[ "type" := PStr "other" ]} !! "type"
  = Some (PStr "other").
Proof. vm_compute. reflexivity. Qed.

Lemma route_info_taper_witness :
  let cs := PStr "strip" in
  let d := build cs (PInt 10) (PInt 8) (PBool true) ∅ in
  d !! "strip_taper_length" = Some (PInt 10)
  ∧ d !! "length" = Some (PInt 8)
  ∧ d !! "strip_length" = Some (PInt 8)
  ∧ d !! "weight" = Some (PInt 8)
  ∧ d !! "type" = Some cs
  ∧ build cs (PInt 10) (PInt 8) (PBool false) ∅ !! "strip_taper_length" = None.
Proof.
  apply (route_info_taper plain_repr plain_container_repr
           (PStr "strip") (PInt 10) (PInt 8)).
  discriminate.
Defined.

(** A registry that knows one cross-section, and a call through it that
    passes [taper] among the extras. *)
Definition one_registry (cs : string) : res CrossSection :=
  if String.eqb cs "strip" then Ok {| info := {[ "type" := PStr "strip" ]} |}
  else if String.eqb cs "bare" then Ok {| info := ∅ |}
  else Raise (ValueError "unknown cross-section").

Example from_cs_taper_keyword :
  (d ← route_info_from_cs plain_repr plain_container_repr string one_registry id
         "strip" (PInt 10) (PInt 8) {[ "taper" := PBool true ]};
   Ok (d !! "type", d !! "length", d !! "strip_taper_length", d !! "taper"))
  = Ok (Some (PStr "strip"), Some (PInt 8), Some (PInt 10), None).
Proof. vm_compute. reflexivity. Qed.

Example from_cs_no_type :
  (d ← route_info_from_cs plain_repr plain_container_repr string one_registry id
         "bare" (PInt 10) PNone ∅;
   Ok (d !! "type", d !! "bare_length", size d))
  = Ok (Some (PStr "bare"), Some (PInt 10), 4%nat).
Proof. vm_compute. reflexivity. Qed.

Example from_cs_unknown :
  route_info_from_cs plain_repr plain_container_repr string one_registry id
    "ridge" (PInt 10) PNone ∅
  = Raise (ValueError "unknown cross-section").
Proof. vm_compute. reflexivity. Qed.


Lemma route_info_from_cs_delegates_witness :
  let kw : gmap string pyval := {[ "taper" := PBool true ]} in
  let x := {| info := {[ "type" := PStr "strip" ]} |} in
  route_info_from_cs plain_repr plain_container_repr string one_registry id
    "strip" (PInt 10) (PInt 8) kw
  = Ok (route_info plain_repr plain_container_repr
          (resolved_type string id "strip" x) (PInt 10) (PInt 8)
          (default (PBool false) (kw !! "taper")) (delete "taper" kw)).
Proof.
  intros kw x.
  apply (proj2 (route_info_from_cs_delegates plain_repr plain_container_repr
                  string one_registry id "strip" (PInt 10) (PInt 8) kw) x);
    vm_compute; reflexivity.
Defined.

End RouteInfo.

(** ** OmegaConf configurations

    [OmegaConf] is a library the code calls; what follows is its
    behaviour on plain configurations: a [DictConfig] is a [PDict], a
    [ListConfig] a [PList], any other value a leaf.  Interpolations and
    the mandatory-value marker are left out. *)

Module OmegaConf.

Fixpoint dict_get (k : pykey) (d : list (pykey * pyval)) : option pyval :=
  match d with
  | [] => None
  | (k', v) :: d' => if decide (k = k') then Some v else dict_get k d'
  end.

(** [d[k] = v]: an existing key keeps its place, a new one goes last. *)
Fixpoint dict_set (k : pykey) (v : pyval) (d : list (pykey * pyval))
    : list (pykey * pyval) :=
  match d with
  | [] => [(k, v)]
  | (k', v') :: d' =>
      if decide (k = k') then (k, v) :: d' else (k', v') :: dict_set k v d'
  end.

Definition is_container (v : pyval) : bool :=
  match v with
  | PDict _ | PList _ => true
  | _ => false
  end.

Definition is_dict (v : pyval) : bool :=
  match v with
  | PDict _ => true
  | _ => false
  end.

Definition cannot_merge : exn :=
  TypeError "Cannot merge DictConfig with ListConfig".

(** [dest.merge_with(src)] on a copy of [dest]: two dictionaries are
    merged key by key, going down where both sides hold a container; a
    list is replaced by the list that overrides it; a dictionary and a
    list do not merge. *)
Fixpoint merge_with (dest src : pyval) {struct src} : res pyval :=
  match src with
  | PDict s =>
      match dest with
      | PDict d =>
          r ← (fix map_merge (d s : list (pykey * pyval)) {struct s}
                 : res (list (pykey * pyval)) :=
                 match s with
                 | [] => Ok d
                 | (key, src_value) :: s' =>
                     d' ← match dict_get key d with
                          | Some dest_node =>
                              if is_container dest_node && is_container src_value
                              then n ← merge_with dest_node src_value;
                                   Ok (dict_set key n d)
                              else Ok (dict_set key src_value d)
                          | None => Ok (dict_set key src_value d)
                          end;
                     map_merge d' s'
                 end) d s;
          Ok (PDict r)
      | _ => Raise cannot_merge
      end
  | PList _ =>
      match dest with
      | PList _ => Ok src
      | _ => Raise cannot_merge
      end
  | _ => Raise cannot_merge
  end.

(** [OmegaConf.merge(a, b)] *)
Definition merge (a b : pyval) : res pyval := merge_with a b.

(** What one key of the overriding dictionary does to the entry the
    destination has under that key. *)
Definition merge_entry (dest_node : option pyval) (src_value : pyval) : res pyval :=
  match dest_node with
  | Some n =>
      if is_container n && is_container src_value then merge_with n src_value
      else Ok src_value
  | None => Ok src_value
  end.

Fixpoint map_merge (d s : list (pykey * pyval)) : res (list (pykey * pyval)) :=
  match s with
  | [] => Ok d
  | (key, src_value) :: s' =>
      n ← merge_entry (dict_get key d) src_value;
      map_merge (dict_set key n d) s'
  end.

(** The value under a path of string keys, [cfg.a.b.c]. *)
Fixpoint select (p : list string) (n : pyval) : option pyval :=
  match p with
  | [] => Some n
  | k :: p' =>
      match n with
      | PDict d =>
          match dict_get (KStr k) d with
          | Some c => select p' c
          | None => None
          end
      | _ => None
      end
  end.

(** A layer leaves a path alone when it stops short of it inside a
    dictionary: it neither holds a value there nor puts a leaf or a
    list over one of the dictionaries on the way. *)
Fixpoint leaves_alone (p : list string) (n : pyval) : bool :=
  match p with
  | [] => false
  | k :: p' =>
      match n with
      | PDict d =>
          match dict_get (KStr k) d with
          | Some c => leaves_alone p' c
          | None => true
          end
      | _ => false
      end
  end.

(** Dictionaries hold each key once, at every depth. *)
Fixpoint distinct_keys (v : pyval) : bool :=
  match v with
  | PDict d =>
      bool_decide (NoDup d.*1)
      && forallb (λ kv, distinct_keys kv.2) d
  | PList l => forallb distinct_keys l
  | _ => true
  end.

Lemma merge_with_dict d s :
  merge_with (PDict d) (PDict s) = (r ← map_merge d s; Ok (PDict r)).
Proof.
  simpl. f_equal.
  revert d. induction s as [|[k sv] s IH]; intros d; simpl; [done|].
  unfold merge_entry.
  destruct (dict_get k d) as [n|]; simpl.
  - destruct (is_container n && is_container sv); simpl.
    + destruct (merge_with n sv); simpl; [apply IH | done].
    + apply IH.
  - apply IH.
Qed.


Lemma dict_get_set_eq k v d : dict_get k (dict_set k v d) = Some v.
Proof.
  induction d as [|[k' v'] d IH]; simpl.
  - by rewrite decide_True.
  - destruct (decide (k = k')) as [->|Hne]; simpl.
    + by rewrite decide_True.
    + by rewrite decide_False.
Qed.

Lemma dict_get_set_ne k k' v d :
  k ≠ k' → dict_get k (dict_set k' v d) = dict_get k d.
Proof.
  intros Hne. induction d as [|[k2 v2] d IH]; simpl.
  - by rewrite decide_False.
  - destruct (decide (k' = k2)) as [->|Hne2]; simpl.
    + by rewrite !decide_False.
    + destruct (decide (k = k2)); [done | apply IH].
Qed.

Lemma dict_get_None k d : dict_get k d = None ↔ k ∉ d.*1.
Proof.
  induction d as [|[k' v'] d IH]; simpl.
  - split; [intros _; apply not_elem_of_nil | done].
  - rewrite not_elem_of_cons. destruct (decide (k = k')) as [->|Hne].
    + split; [done | by intros [? _]].
    + rewrite IH. split; [by intros ? | by intros [_ ?]].
Qed.

Lemma dict_get_elem k v d : dict_get k d = Some v → (k, v) ∈ d.
Proof.
  induction d as [|[k' v'] d IH]; simpl; [done|].
  destruct (decide (k = k')) as [->|Hne].
  - intros [= ->]. apply list_elem_of_here.
  - intros H. apply list_elem_of_further, IH, H.
Qed.

Lemma map_merge_untouched d s r k :
  map_merge d s = Ok r → k ∉ s.*1 → dict_get k r = dict_get k d.
Proof.
  revert d. induction s as [|[k' sv] s IH]; intros d; simpl.
  - by intros [= ->].
  - rewrite not_elem_of_cons. intros Hm [Hne Hnotin].
    destruct (merge_entry (dict_get k' d) sv) as [n|e]; simpl in Hm; [|done].
    rewrite (IH _ Hm Hnotin). by apply dict_get_set_ne.
Qed.

Lemma map_merge_touched d s r k sv :
  map_merge d s = Ok r → NoDup s.*1 → dict_get k s = Some sv →
  ∃ n, merge_entry (dict_get k d) sv = Ok n ∧ dict_get k r = Some n.
Proof.
  revert d. induction s as [|[k' sv'] s IH]; intros d; simpl; [done|].
  intros Hm Hnd Hget. apply NoDup_cons in Hnd as [Hnotin Hnd].
  destruct (merge_entry (dict_get k' d) sv') as [n|e] eqn:He; simpl in Hm; [|done].
  destruct (decide (k = k')) as [->|Hne].
  - injection Hget as ->. exists n. split; [done|].
    rewrite (map_merge_untouched _ _ _ _ Hm Hnotin). apply dict_get_set_eq.
  - destruct (IH _ Hm Hnd Hget) as (n' & Hn' & Hr).
    exists n'. split; [|done]. by rewrite dict_get_set_ne in Hn'.
Qed.

Lemma distinct_keys_dict d :
  distinct_keys (PDict d) = true →
  NoDup d.*1 ∧ ∀ k v, dict_get k d = Some v → distinct_keys v = true.
Proof.
  simpl. rewrite andb_true_iff, bool_decide_eq_true, forallb_forall.
  intros [Hnd Hall]. split; [done|].
  intros k v Hget. apply dict_get_elem, list_elem_of_In in Hget.
  apply (Hall _ Hget).
Qed.

Lemma select_leaves_alone p n : leaves_alone p n = true → select p n = None.
Proof.
  revert n. induction p as [|k p IH]; intros n; simpl; [done|].
  destruct n; try done. destruct (dict_get (KStr k) d); [apply IH | done].
Qed.

Lemma leaves_alone_dict p n : leaves_alone p n = true → is_dict n = true ∧ p ≠ [].
Proof. destruct p, n; simpl; try done. Qed.

Lemma select_not_dict p n : p ≠ [] → is_dict n = false → select p n = None.
Proof. destruct p, n; simpl; try done. Qed.

(** A merge that succeeds is a merge of two dictionaries or of two
    lists. *)
Lemma merge_with_Ok d s r :
  merge_with d s = Ok r →
  (∃ dm sm rm, d = PDict dm ∧ s = PDict sm ∧ r = PDict rm ∧ map_merge dm sm = Ok rm)
  ∨ (∃ dl sl, d = PList dl ∧ s = PList sl ∧ r = s).
Proof.
  destruct s as [ | | | | | |sl|sm| ]; try done.
  - destruct d; try done. intros [= <-]. right. eauto.
  - destruct d as [ | | | | | | |dm| ]; try done.
    rewrite merge_with_dict. destruct (map_merge dm sm) as [rm|] eqn:Hm; [|done].
    intros [= <-]. left. by exists dm, sm, rm.
Qed.

(** Where the overriding layer holds a value that is not a dictionary,
    the merge holds that value. *)
Lemma merge_select_leaf p : ∀ d s r v,
  distinct_keys s = true → merge_with d s = Ok r →
  select p s = Some v → is_dict v = false → select p r = Some v.
Proof.
  induction p as [|k p IH]; intros d s r v Hwf Hm Hsel Hleaf.
  - simpl in *. injection Hsel as ->.
    destruct (merge_with_Ok _ _ _ Hm) as [(dm & sm & rm & -> & -> & _)|(dl & sl & _ & _ & ->)];
      [done | done].
  - destruct (merge_with_Ok _ _ _ Hm) as [(dm & sm & rm & -> & -> & -> & Hmm)|(dl & sl & -> & -> & ->)];
      [|done].
    simpl in Hsel |- *.
    destruct (dict_get (KStr k) sm) as [c|] eqn:Hc; [|done].
    destruct (distinct_keys_dict _ Hwf) as [Hnd Hsub].
    destruct (map_merge_touched _ _ _ _ _ Hmm Hnd Hc) as (n & Hn & ->).
    unfold merge_entry in Hn.
    destruct (dict_get (KStr k) dm) as [dv|].
    + destruct (is_container dv && is_container c).
      * apply (IH dv c n v); [by eapply Hsub | done | done | done].
      * by injection Hn as <-.
    + by injection Hn as <-.
Qed.

(** Where the overriding layer leaves a path alone, the merge holds
    what the destination holds there. *)
Lemma merge_select_alone p : ∀ d s r,
  distinct_keys s = true → merge_with d s = Ok r →
  leaves_alone p s = true → select p r = select p d.
Proof.
  induction p as [|k p IH]; intros d s r Hwf Hm Halone; [done|].
  destruct (merge_with_Ok _ _ _ Hm) as [(dm & sm & rm & -> & -> & -> & Hmm)|(dl & sl & -> & -> & ->)];
    [|done].
  simpl in Halone |- *.
  destruct (distinct_keys_dict _ Hwf) as [Hnd Hsub].
  destruct (dict_get (KStr k) sm) as [c|] eqn:Hc.
  - destruct (map_merge_touched _ _ _ _ _ Hmm Hnd Hc) as (n & Hn & ->).
    destruct (leaves_alone_dict _ _ Halone) as [Hcd Hp].
    unfold merge_entry in Hn.
    destruct (dict_get (KStr k) dm) as [dv|].
    + destruct (is_container dv && is_container c) eqn:Hboth.
      * apply (IH dv c n); [by eapply Hsub | done | done].
      * injection Hn as <-. rewrite (select_leaves_alone _ _ Halone).
        symmetry. apply select_not_dict; [done|].
        destruct c; try done. destruct dv; try done.
    + injection Hn as <-. by apply select_leaves_alone.
  - apply dict_get_None in Hc.
    by rewrite (map_merge_untouched _ _ _ _ Hmm Hc).
Qed.

End OmegaConf.

(** ** [config.py]: the three layers *)

Module Layers.
Import OmegaConf.

(** A configuration file as the code sees it: whether it exists,
    whether it may be read, and what the YAML parser makes of it. *)
Record file := {
  f_exists : bool;
  f_readable : bool;
  f_yaml : res pyval;
}.

(** [os.access(f, os.R_OK)] *)
Definition os_access_R (f : file) : bool := f_exists f && f_readable f.

(** [OmegaConf.load(f)] *)
Definition load (f : file) : res pyval :=
  if negb (f_exists f) then Raise (FileNotFoundError "No such file or directory")
  else if negb (f_readable f) then Raise (OtherError "PermissionError" "Permission denied")
  else f_yaml f.

(** [if os.access(f, os.R_OK) and f.exists(): TECH = OmegaConf.merge(TECH, OmegaConf.load(f))] *)
Definition present (f : file) : bool := os_access_R f && f_exists f.

Definition overlay (TECH : pyval) (f : file) : res pyval :=
  if present f then
    TECH_F ← load f;
    merge TECH TECH_F
  else Ok TECH.

(** Lines 46 to 55: [TECH] after the two conditional merges. *)
Definition resolve (default_config home_config cwd_config : file) : res pyval :=
  TECH ← load default_config;
  TECH ← overlay TECH home_config;
  overlay TECH cwd_config.

(** The layer a file contributes, if any. *)
Definition layer (f : file) : list pyval :=
  if present f then
    match f_yaml f with
    | Ok v => [v]
    | Raise _ => []
    end
  else [].

(** The layers that take part, highest priority first. *)
Definition layers (default_config home_config cwd_config : file) : list pyval :=
  layer cwd_config ++ layer home_config ++ layer default_config.

(** Going down from the highest priority past every layer that leaves
    the path alone, the value of the first layer that does not. *)
Fixpoint governing (p : list string) (high_first : list pyval) : option pyval :=
  match high_first with
  | [] => None
  | L :: lower =>
      match select p L with
      | Some v => Some v
      | None => if leaves_alone p L then governing p lower else None
      end
  end.

Fixpoint merge_all (TECH : pyval) (overrides : list pyval) : res pyval :=
  match overrides with
  | [] => Ok TECH
  | L :: higher =>
      T ← merge TECH L;
      merge_all T higher
  end.

Lemma merge_all_snoc base ovs top :
  merge_all base (ovs ++ [top]) = (T ← merge_all base ovs; merge T top).
Proof.
  revert base. induction ovs as [|L ovs IH]; intros base; simpl.
  - by destruct (merge base top).
  - destruct (merge base L) as [T|e]; simpl; [apply IH | done].
Qed.

Lemma merge_all_governing p v ovs : ∀ base R,
  merge_all base ovs = Ok R →
  Forall (λ L, distinct_keys L = true) ovs →
  governing p (rev ovs ++ [base]) = Some v →
  is_dict v = false →
  select p R = Some v.
Proof.
  induction ovs as [|top ovs IH] using rev_ind; intros base R Hm Hwf Hgov Hleaf.
  - simpl in *. injection Hm as <-.
    destruct (select p base); [done|]. by destruct (leaves_alone p base).
  - rewrite merge_all_snoc in Hm.
    destruct (merge_all base ovs) as [T|e] eqn:HT; simpl in Hm; [|done].
    apply Forall_app in Hwf as [Hwf Htop]. apply Forall_inv in Htop.
    rewrite rev_unit in Hgov. simpl in Hgov.
    destruct (select p top) as [v'|] eqn:Hsel.
    + injection Hgov as ->. exact (merge_select_leaf p T top R v Htop Hm Hsel Hleaf).
    + destruct (leaves_alone p top) eqn:Halone; [|done].
      rewrite (merge_select_alone p T top R Htop Hm Halone).
      by apply (IH base T).
Qed.

Lemma load_layer f v : load f = Ok v → layer f = [v].
Proof.
  unfold load, layer, present, os_access_R.
  destruct (f_exists f), (f_readable f); simpl; try done. by intros ->.
Qed.

Lemma overlay_layer T f R :
  overlay T f = Ok R → merge_all T (layer f) = Ok R.
Proof.
  unfold overlay, layer. destruct (present f) eqn:Hp; [|done].
  unfold load. unfold present, os_access_R in Hp.
  destruct (f_exists f), (f_readable f); simpl in *; try done.
  destruct (f_yaml f) as [v|e]; simpl; [|done].
  by destruct (merge T v).
Qed.

Lemma merge_all_app T l1 l2 :
  merge_all T (l1 ++ l2) = (T' ← merge_all T l1; merge_all T' l2).
Proof.
  revert T. induction l1 as [|L l1 IH]; intros T; simpl.
  - by destruct (merge_all T l2).
  - destruct (merge T L); simpl; [apply IH | done].
Qed.

Lemma rev_layer f : rev (layer f) = layer f.
Proof. unfold layer. destruct (present f); [|done]. by destruct (f_yaml f). Qed.

Lemma overlay_skipped T f :
  f_exists f = false ∨ f_readable f = false → overlay T f = Ok T.
Proof.
  unfold overlay, present, os_access_R.
  intros [-> | ->]; [done|]. by rewrite andb_false_r.
Qed.

(** *** Concrete layers *)

Definition yaml_file (v : pyval) : file :=
  {| f_exists := true; f_readable := true; f_yaml := Ok v |}.
Definition missing_file : file :=
  {| f_exists := false; f_readable := false; f_yaml := Raise (FileNotFoundError "") |}.
Definition unreadable_file (v : pyval) : file :=
  {| f_exists := true; f_readable := false; f_yaml := Ok v |}.

Definition sample_default : pyval :=
  PDict [(KStr "tech", PDict [(KStr "a", PInt 1); (KStr "b", PInt 2)]);
         (KStr "name", PStr "generic")].
Definition sample_cwd : pyval :=
  PDict [(KStr "tech", PDict [(KStr "a", PInt 3)])].

Definition nested_default : pyval := PDict [(KStr "a", PDict [(KStr "b", PInt 1)])].
Definition nested_home : pyval := PDict [(KStr "a", PDict [(KStr "b", PInt 2)])].
Definition flat_cwd : pyval := PDict [(KStr "a", PInt 5)].

Example resolve_sample :
  resolve (yaml_file sample_default) missing_file (yaml_file sample_cwd)
  = Ok (PDict [(KStr "tech", PDict [(KStr "a", PInt 3); (KStr "b", PInt 2)]);
               (KStr "name", PStr "generic")]).
Proof. reflexivity. Qed.

Example resolve_default_only :
  resolve (yaml_file sample_default) missing_file (unreadable_file sample_cwd)
  = Ok sample_default.
Proof. reflexivity. Qed.

Example resolve_no_default :
  resolve missing_file (yaml_file sample_cwd) (yaml_file sample_cwd)
  = Raise (FileNotFoundError "No such file or directory").
Proof. reflexivity. Qed.

(** C1, as stated, fails.  First, the path [tech] is defined by the
    default and by the working-directory layer, and the resolved value
    is the key-by-key merge of the two dictionaries, not the dictionary
    of the working-directory layer.  Second, the path [a.b] is defined
    by the default and by the machine layer, the machine layer being the
    highest that defines it, and the resolved configuration has no value
    there, since the working-directory layer puts a leaf at [a]. *)
Lemma precedence_as_stated_fails :
  (select ["tech"] sample_default = Some (PDict [(KStr "a", PInt 1); (KStr "b", PInt 2)])
   ∧ select ["tech"] sample_cwd = Some (PDict [(KStr "a", PInt 3)])
   ∧ ∃ TECH,
       resolve (yaml_file sample_default) missing_file (yaml_file sample_cwd) = Ok TECH
       ∧ select ["tech"] TECH = Some (PDict [(KStr "a", PInt 3); (KStr "b", PInt 2)])
       ∧ select ["tech"] TECH ≠ select ["tech"] sample_cwd)
  ∧ (select ["a"; "b"] nested_default = Some (PInt 1)
     ∧ select ["a"; "b"] nested_home = Some (PInt 2)
     ∧ select ["a"; "b"] flat_cwd = None
     ∧ ∃ TECH,
         resolve (yaml_file nested_default) (yaml_file nested_home) (yaml_file flat_cwd) = Ok TECH
         ∧ select ["a"; "b"] TECH = None
         ∧ select ["a"; "b"] TECH ≠ select ["a"; "b"] nested_home).
Proof.
  split.
  - do 2 (split; [reflexivity|]). eexists. split; [reflexivity|]. by split.
  - do 3 (split; [reflexivity|]). eexists. split; [reflexivity|]. by split.
Qed.

(** C1, amended.  Take the layers that take part, from the highest
    priority down, and skip those that leave the path alone (they hold
    nothing there and put no leaf or list over a dictionary on the way):
    if the first remaining layer holds at the path a value that is not a
    dictionary, the resolved configuration holds that value there.  A
    machine or working-directory file that is absent or unreadable is
    skipped without error: the result is that of the other layers. *)
Theorem layered_precedence (default_config home_config cwd_config : file) :
  (∀ TECH p v,
     resolve default_config home_config cwd_config = Ok TECH →
     Forall (λ L, distinct_keys L = true)
       (layers default_config home_config cwd_config) →
     governing p (layers default_config home_config cwd_config) = Some v →
     is_dict v = false →
     select p TECH = Some v)
  ∧ (f_exists cwd_config = false ∨ f_readable cwd_config = false →
     resolve default_config home_config cwd_config
     = (TECH ← load default_config; overlay TECH home_config))
  ∧ (f_exists home_config = false ∨ f_readable home_config = false →
     resolve default_config home_config cwd_config
     = (TECH ← load default_config; overlay TECH cwd_config)).
Proof.
  split; [|split].
  - intros TECH p v Hres Hwf Hgov Hleaf. unfold resolve in Hres.
    destruct (load default_config) as [base|e] eqn:Hbase; simpl in Hres; [|done].
    destruct (overlay base home_config) as [T1|e] eqn:H1; simpl in Hres; [|done].
    apply overlay_layer in H1, Hres.
    assert (merge_all base (layer home_config ++ layer cwd_config) = Ok TECH) as Hall.
    { rewrite merge_all_app, H1. exact Hres. }
    unfold layers in Hwf, Hgov. rewrite (load_layer _ _ Hbase) in Hwf, Hgov.
    apply (merge_all_governing p v _ base TECH Hall); [| |done].
    + apply Forall_app in Hwf as [Hc Hwf]. apply Forall_app in Hwf as [Hh _].
      by apply Forall_app.
    + by rewrite rev_app_distr, !rev_layer, <- app_assoc.
  - intros Hskip. unfold resolve.
    destruct (load default_config) as [base|e]; simpl; [|done].
    destruct (overlay base home_config) as [T1|e]; simpl; [|done].
    by apply overlay_skipped.
  - intros Hskip. unfold resolve.
    destruct (load default_config) as [base|e]; simpl; [|done].
    by rewrite (overlay_skipped base home_config Hskip).
Qed.

Lemma layered_precedence_witness :
  let TECH := PDict [(KStr "tech", PDict [(KStr "a", PInt 3); (KStr "b", PInt 2)]);
                     (KStr "name", PStr "generic")] in
  select ["tech"; "a"] TECH = Some (PInt 3)
  ∧ select ["tech"; "b"] TECH = Some (PInt 2)
  ∧ resolve (yaml_file sample_default) missing_file (unreadable_file sample_cwd)
    = (T ← load (yaml_file sample_default); overlay T missing_file).
Proof.
  pose proof (layered_precedence (yaml_file sample_default) missing_file
                (yaml_file sample_cwd)) as (Hprec & _ & _).
  pose proof (layered_precedence (yaml_file sample_default) missing_file
                (unreadable_file sample_cwd)) as (_ & Hskip & _).
  split; [|split].
  - apply (Hprec _ ["tech"; "a"] (PInt 3)); [reflexivity | | reflexivity | reflexivity].
    repeat constructor.
  - apply (Hprec _ ["tech"; "b"] (PInt 2)); [reflexivity | | reflexivity | reflexivity].
    repeat constructor.
  - apply Hskip. by right.
Defined.

End Layers.

(** ** [config.py]: provenance, the path table, the accessor *)

Module Config.
Import OmegaConf.

Definition __version__ : string := "2.4.9".

(** The paths the module computes when it is imported; [module_path]
    is absolute. *)
Record env := {
  home : list string;
  cwd : list string;
  module_path : list string;
  dirpath_build : list string;
  dirpath_test : list string;
}.

(** [p.parent] of an absolute path *)
Definition parent (p : list string) : list string :=
  match p with
  | [] | [_] => p
  | _ => removelast p
  end.

Definition repo_path (e : env) : list string := parent (module_path e).
Definition cwd_config (e : env) : list string := path_join (cwd e) "config.yml".

(** [cfg.k] and [cfg.get(k)] on a [DictConfig]: a key that is not
    there reads as [None]. *)
Definition cfg_getattr (cfg : pyval) (k : string) : res pyval :=
  match cfg with
  | PDict d => Ok (default PNone (dict_get (KStr k) d))
  | _ => Raise (AttributeError k)
  end.

(** [cfg.k = v] *)
Definition cfg_setattr (cfg : pyval) (k : string) (v : pyval) : res pyval :=
  match cfg with
  | PDict d => Ok (PDict (dict_set (KStr k) v d))
  | _ => Raise (AttributeError k)
  end.

(** [k in cfg] *)
Definition cfg_contains (cfg : pyval) (k : string) : bool :=
  match cfg with
  | PDict d => bool_decide (is_Some (dict_get (KStr k) d))
  | _ => false
  end.

(** *** Lines 58 to 73: provenance *)

(** The version-control library as the code uses it: what importing it
    raises, if anything, and what the head commit of the repository
    around a path is. *)
Record git_provider := {
  git_import : option exn;
  head_hexsha : list string → res string;
}.

(** A block of statements on [TECH]: the configuration it leaves, and
    the exception it ends with, if any. *)
Definition block : Type := pyval → pyval * option exn.

(** [try: body except E: pass] *)
Definition try_except (handles : exn → bool) (body : block) : block :=
  λ TECH,
    match body TECH with
    | (TECH', Some e) => if handles e then (TECH', None) else (TECH', Some e)
    | done => done
    end.

Definition is_InvalidGitRepositoryError (e : exn) : bool :=
  match e with InvalidGitRepositoryError _ => true | _ => false end.
Definition is_ImportError (e : exn) : bool :=
  match e with ImportError _ => true | _ => false end.

(** [TECH.info.k = v] *)
Definition set_info (TECH : pyval) (k : string) (v : pyval) : res pyval :=
  info ← cfg_getattr TECH "info";
  info ← cfg_setattr info k v;
  cfg_setattr TECH "info" info.

(** Lines 65 to 68. *)
Definition query_revisions (git : git_provider) (e : env) : block :=
  λ TECH,
    match head_hexsha git (repo_path e) with
    | Raise x => (TECH, Some x)
    | Ok h =>
        match set_info TECH "git_hash" (PStr h) with
        | Raise x => (TECH, Some x)
        | Ok TECH1 =>
            match head_hexsha git (cwd e) with
            | Raise x => (TECH1, Some x)
            | Ok h' =>
                match cfg_setattr TECH1 "git_hash_cwd" (PStr h') with
                | Raise x => (TECH1, Some x)
                | Ok TECH2 => (TECH2, None)
                end
            end
        end
    end.

(** Lines 61 to 73. *)
Definition query_git (git : git_provider) (e : env) : block :=
  try_except is_ImportError
    (λ TECH,
       match git_import git with
       | Some x => (TECH, Some x)
       | None => try_except is_InvalidGitRepositoryError (query_revisions git e) TECH
       end).

(** Lines 58 to 73. *)
Definition annotate (git : git_provider) (e : env) : block :=
  λ TECH,
    match cfg_setattr TECH "info" (PDict []) with
    | Raise x => (TECH, Some x)
    | Ok TECH1 =>
        match set_info TECH1 "version" (PStr __version__) with
        | Raise x => (TECH1, Some x)
        | Ok TECH2 => query_git git e TECH2
        end
    end.

Ltac dict_simpl :=
  repeat first
    [ rewrite dict_get_set_eq
    | rewrite dict_get_set_ne by done
    | progress (unfold fst, snd)
    | progress simpl ].

(** The failures the two [except] clauses let pass. *)
Definition tolerated (x : exn) : bool :=
  is_InvalidGitRepositoryError x || is_ImportError x.

Definition no_git : git_provider :=
  {| git_import := Some (ImportError "No module named 'git'");
     head_hexsha := λ _, Raise (ImportError "No module named 'git'") |}.
Definition not_a_repository : git_provider :=
  {| git_import := None;
     head_hexsha := λ p, Raise (InvalidGitRepositoryError (path_str p)) |}.
Definition empty_repository : git_provider :=
  {| git_import := None;
     head_hexsha := λ _, Raise (ValueError "Reference at 'refs/heads/master' does not exist") |}.
Definition sample_env : env :=
  {| home := ["/"; "home"; "user"];
     cwd := ["/"; "work"];
     module_path := ["/"; "lib"; "pp"];
     dirpath_build := ["/"; "tmp"; "build"];
     dirpath_test := ["/"; "tmp"; "test"] |}.

(** C8, as stated, fails: a provider error that is neither "not a
    repository" nor a failed import, here the [ValueError] of a
    repository without commits, leaves the annotator as an exception. *)
Lemma provider_error_propagates :
  (annotate empty_repository sample_env (PDict [])).2
  = Some (ValueError "Reference at 'refs/heads/master' does not exist").
Proof. reflexivity. Qed.

(** C8, amended.  The version is always set.  When importing the
    provider raises nothing but [ImportError] and a revision query
    raises nothing but [InvalidGitRepositoryError] or [ImportError], no
    exception leaves the annotator; [info.git_hash] is there exactly
    when the query for the library's directory answered, and
    [git_hash_cwd] is set only when both queries answered and is
    otherwise as the layers left it. *)
Theorem provenance_annotation (git : git_provider) (e : env)
    (d : list (pykey * pyval)) :
  let r := annotate git e (PDict d) in
  select ["info"; "version"] r.1 = Some (PStr __version__)
  ∧ ((∀ x, git_import git = Some x → is_ImportError x = true) →
     (∀ p x, head_hexsha git p = Raise x → tolerated x = true) →
     r.2 = None
     ∧ select ["info"; "git_hash"] r.1
       = match git_import git, head_hexsha git (repo_path e) with
         | None, Ok h => Some (PStr h)
         | _, _ => None
         end
     ∧ select ["git_hash_cwd"] r.1
       = match git_import git, head_hexsha git (repo_path e), head_hexsha git (cwd e) with
         | None, Ok _, Ok h' => Some (PStr h')
         | _, _, _ => select ["git_hash_cwd"] (PDict d)
         end).
Proof.
  assert (KStr "git_hash_cwd" ≠ KStr "info") as Hne1 by done.
  assert (KStr "info" ≠ KStr "git_hash_cwd") as Hne2 by done.
  intros r. subst r. unfold annotate, query_git, try_except, query_revisions, set_info.
  simpl. rewrite !dict_get_set_eq. simpl.
  destruct (git_import git) as [x|] eqn:Himp.
  - split.
    + destruct (is_ImportError x); by dict_simpl.
    + intros Hi _. rewrite (Hi x eq_refl). by dict_simpl.
  - destruct (head_hexsha git (repo_path e)) as [h|x] eqn:Hrepo; simpl.
    + rewrite !dict_get_set_eq. simpl.
      destruct (head_hexsha git (cwd e)) as [h'|x] eqn:Hcwd; simpl.
      * split; [by dict_simpl|]. intros _ _. by dict_simpl.
      * split.
        -- destruct (is_InvalidGitRepositoryError x), (is_ImportError x); by dict_simpl.
        -- intros _ Ht. specialize (Ht _ _ Hcwd). unfold tolerated in Ht.
           destruct (is_InvalidGitRepositoryError x); simpl in *;
             [|rewrite Ht]; by dict_simpl.
    + split.
      * destruct (is_InvalidGitRepositoryError x), (is_ImportError x); by dict_simpl.
      * intros _ Ht. specialize (Ht _ _ Hrepo). unfold tolerated in Ht.
        destruct (is_InvalidGitRepositoryError x); simpl in *;
          [|rewrite Ht]; by dict_simpl.
Qed.

(** *** Lines 76 to 118: the path table [CONFIG]

    The directories the module creates on the way and the log file it
    opens are effects on the file system and are left out. *)

(** [a / name] *)
Definition py_truediv (a : pyval) (name : string) : res pyval :=
  match a with
  | PPath p => Ok (PPath (path_join p name))
  | _ => Raise (TypeError "unsupported operand type(s) for /")
  end.

(** [a + suffix] for a string [suffix] *)
Definition py_add_str (a : pyval) (suffix : string) : res string :=
  match a with
  | PStr s => Ok (s +:+ suffix)
  | _ => Raise (TypeError "unsupported operand type(s) for +")
  end.

(** Line 101, the right-hand side. *)
Definition gdslib_entry (e : env) (TECH : pyval) : res pyval :=
  configured ← cfg_getattr TECH "gdslib";
  Ok (py_or configured (PPath (path_join (repo_path e) "gdslib"))).

Section Table.
Variable float_repr : Q → string.
Variable container_repr : pyval → string.
Local Abbreviation str := (py_str float_repr container_repr).

(** Lines 76 to 85. *)
Definition CONFIG_paths (e : env) : gmap string pyval :=
  <["cwd" := PPath (cwd e)]>
  (<["home" := PPath (home e)]>
  (<["masks_path" := PPath (path_join (repo_path e) "mask")]>
  (<["font_path" := PPath (path_join (path_join (module_path e) "gds") "alphabet.gds")]>
  (<["gdsdir" := PPath (path_join (module_path e) "gds")]>
  (<["module_path" := PPath (module_path e)]>
  (<["repo_path" := PPath (repo_path e)]>
  (<["config_path" := PPath (cwd_config e)]> ∅))))))).

(** Lines 87 to 118. *)
Definition build_CONFIG (e : env) (TECH : pyval) : res (gmap string pyval) :=
  let CONFIG := CONFIG_paths e in
  '(mask_name, build_directory, mask_config_directory, CONFIG) ←
    (if cfg_contains TECH "mask" then
       mask ← cfg_getattr TECH "mask";
       mask_name ← cfg_getattr mask "name";
       let mask_config_directory := cwd e in
       let build_directory := path_join mask_config_directory "build" in
       let CONFIG :=
         <["devices_directory" := PPath (path_join mask_config_directory "devices")]> CONFIG in
       let CONFIG :=
         <["mask_gds" :=
             PPath (path_join (path_join (path_join mask_config_directory "build") "mask")
                      (str mask_name +:+ ".gds"))]> CONFIG in
       Ok (mask_name, build_directory, mask_config_directory, CONFIG)
     else
       Ok (PStr "notDefined", dirpath_build e, dirpath_build e, CONFIG));
  custom_components ← cfg_getattr TECH "custom_components";
  let CONFIG := <["custom_components" := custom_components]> CONFIG in
  gdslib ← gdslib_entry e TECH;
  let CONFIG := <["gdslib" := gdslib]> CONFIG in
  sp ← py_truediv gdslib "sp";
  let CONFIG := <["sp" := sp]> CONFIG in
  gds ← py_truediv gdslib "gds";
  let CONFIG := <["gds" := gds]> CONFIG in
  let CONFIG := <["gdslib_test" := PPath (dirpath_test e)]> CONFIG in
  let CONFIG := <["build_directory" := PPath build_directory]> CONFIG in
  let CONFIG := <["gds_directory" := PPath (path_join build_directory "devices")]> CONFIG in
  let CONFIG := <["cache_doe_directory" := PPath (path_join build_directory "cache_doe")]> CONFIG in
  let CONFIG := <["doe_directory" := PPath (path_join build_directory "doe")]> CONFIG in
  let CONFIG := <["mask_directory" := PPath (path_join build_directory "mask")]> CONFIG in
  mask_file ← py_add_str mask_name ".gds";
  let CONFIG :=
    <["mask_gds" := PPath (path_join (path_join build_directory "mask") mask_file)]> CONFIG in
  let CONFIG := <["mask_config_directory" := PPath mask_config_directory]> CONFIG in
  let CONFIG := <["samples_path" := PPath (path_join (module_path e) "samples")]> CONFIG in
  let CONFIG :=
    <["netlists" := PPath (path_join (path_join (module_path e) "samples") "netlists")]> CONFIG in
  let CONFIG := <["components_path" := PPath (path_join (module_path e) "components")]> CONFIG in
  match CONFIG !! "gds_resources", CONFIG !! "masks_path" with
  | Some (PStr r), Some masks =>
      resources ← py_truediv masks r;
      Ok (<["gds_resources" := resources]> CONFIG)
  | Some _, _ => Raise (TypeError "unsupported operand type(s) for /")
  | None, _ => Ok CONFIG
  end.

(** *** Lines 135 to 146: [print_config]

    What is printed, line by line. *)

Variable pformat : gmap string pyval → string.
Variable to_yaml : pyval → string.

Definition not_found (key : string) (e : env) : string :=
  "`" +:+ key +:+ "` key not found in " +:+ path_str (cwd_config e).

Definition print_config (TECH : pyval) (CONFIG : gmap string pyval) (e : env)
    (key : option string) : res (list string) :=
  let print_all := Ok [pformat CONFIG; to_yaml TECH] in
  match key with
  | Some key =>
      if truthy (PStr key) then
        found ← cfg_getattr TECH key;
        if truthy found then
          v ← cfg_getattr TECH key;
          Ok [str v]
        else if truthy (default PNone (CONFIG !! key)) then
          Ok [str (default PNone (CONFIG !! key))]
        else Ok [not_found key e]
      else print_all
  | None => print_all
  end.

Lemma build_CONFIG_gdslib e TECH C :
  build_CONFIG e TECH = Ok C →
  ∃ g, gdslib_entry e TECH = Ok g ∧ C !! "gdslib" = Some g.
Proof.
  unfold build_CONFIG. intros H.
  apply bind_Ok in H as ([[[mask_name bd] mcd] C0] & _ & H).
  apply bind_Ok in H as (cc & _ & H).
  apply bind_Ok in H as (g & Hg & H).
  apply bind_Ok in H as (sp & _ & H).
  apply bind_Ok in H as (gds & _ & H).
  apply bind_Ok in H as (mask_file & _ & H).
  exists g. split; [exact Hg|].
  match type of H with
  | match ?m !! "gds_resources" with _ => _ end = _ =>
      assert (m !! "gdslib" = Some g) as Hin;
      [rewrite !lookup_insert_ne by done; apply lookup_insert_eq|];
      generalize dependent m; intros CONFIG H Hin
  end.
  destruct (CONFIG !! "gds_resources") as [r|].
  - destruct r; try done. destruct (CONFIG !! "masks_path") as [masks|]; [|done].
    apply bind_Ok in H as (resources & _ & [= <-]).
    by rewrite lookup_insert_ne.
  - by injection H as <-.
Qed.

(** What [print_config] prints for a key, case by case. *)
Lemma print_config_cases d CONFIG e key :
  key ≠ "" →
  let found := default PNone (dict_get (KStr key) d) in
  let other := default PNone (CONFIG !! key) in
  print_config (PDict d) CONFIG e (Some key)
  = Ok [if truthy found then str found
        else if truthy other then str other
        else not_found key e].
Proof.
  intros Hkey found other. unfold print_config. simpl.
  assert (String.eqb key "" = false) as -> by by apply String.eqb_neq.
  simpl. fold found other.
  destruct (truthy found); [done|]. by destruct (truthy other).
Qed.

(** C9, on the code.  A key that the resolved configuration holds with
    a value Python takes as false (zero, [False], the empty string,
    [None], an empty container) is not printed: the accessor goes on to
    the path table and, when the key is not there either, reports the
    key as not found. *)
Theorem print_config_falsy_not_found d CONFIG e key v :
  key ≠ "" →
  dict_get (KStr key) d = Some v →
  truthy v = false →
  CONFIG !! key = None →
  print_config (PDict d) CONFIG e (Some key) = Ok [not_found key e].
Proof.
  intros Hkey Hget Hv Hc. rewrite print_config_cases by done.
  rewrite Hget, Hc. simpl. by rewrite Hv.
Qed.
End Table.

(** C10.  The [gdslib] entry is the default location, the repository
    path joined with [gdslib], when the resolved configuration has no
    [gdslib] key and also whenever the configured value is false as a
    truth value, as the empty string, [None], [False] and zero are; a
    configured value that is true as a truth value is kept.  The table
    that is built holds that entry under [gdslib]. *)
Theorem gdslib_falls_back_on_falsy (e : env) (d : list (pykey * pyval)) :
  let default_location := PPath (path_join (repo_path e) "gdslib") in
  (dict_get (KStr "gdslib") d = None →
     gdslib_entry e (PDict d) = Ok default_location)
  ∧ (∀ v, dict_get (KStr "gdslib") d = Some v → truthy v = false →
       gdslib_entry e (PDict d) = Ok default_location)
  ∧ (∀ v, dict_get (KStr "gdslib") d = Some v → truthy v = true →
       gdslib_entry e (PDict d) = Ok v)
  ∧ truthy (PStr "") = false ∧ truthy PNone = false
  ∧ truthy (PBool false) = false ∧ truthy (PInt 0) = false
  ∧ truthy (PFloat 0) = false
  ∧ (∀ float_repr container_repr C,
       build_CONFIG float_repr container_repr e (PDict d) = Ok C →
       ∃ g, gdslib_entry e (PDict d) = Ok g ∧ C !! "gdslib" = Some g).
Proof.
  intros default_location.
  assert (∀ fr cr C, build_CONFIG fr cr e (PDict d) = Ok C →
            ∃ g, gdslib_entry e (PDict d) = Ok g ∧ C !! "gdslib" = Some g) as Htable.
  { intros fr cr C HC. by apply (build_CONFIG_gdslib fr cr). }
  unfold gdslib_entry, py_or in *. simpl.
  repeat split; try done.
  - by intros ->.
  - intros v -> Hv. simpl. by rewrite Hv.
  - intros v -> Hv. simpl. by rewrite Hv.
Qed.

Definition tech_empty_gdslib : list (pykey * pyval) :=
  [(KStr "custom_components", PNone); (KStr "gdslib", PStr "")].

Example CONFIG_empty_gdslib :
  (C ← build_CONFIG RouteInfo.plain_repr RouteInfo.plain_container_repr
         sample_env (PDict tech_empty_gdslib);
   Ok (C !! "gdslib", C !! "sp"))
  = Ok (Some (PPath ["/"; "lib"; "gdslib"]), Some (PPath ["/"; "lib"; "gdslib"; "sp"])).
Proof. vm_compute. reflexivity. Qed.

Lemma gdslib_falls_back_on_falsy_witness :
  gdslib_entry sample_env (PDict tech_empty_gdslib)
  = Ok (PPath ["/"; "lib"; "gdslib"])
  ∧ gdslib_entry sample_env (PDict []) = Ok (PPath ["/"; "lib"; "gdslib"]).
Proof.
  split.
  - apply (proj1 (proj2 (gdslib_falls_back_on_falsy sample_env tech_empty_gdslib))
             (PStr "")); reflexivity.
  - apply (proj1 (gdslib_falls_back_on_falsy sample_env [])). reflexivity.
Defined.

Definition tech_zero : list (pykey * pyval) := [(KStr "debug", PInt 0)].

Lemma print_config_falsy_not_found_witness :
  dict_get (KStr "debug") tech_zero = Some (PInt 0)
  ∧ print_config RouteInfo.plain_repr RouteInfo.plain_container_repr
      (λ _, "") (λ _, "") (PDict tech_zero) ∅ sample_env (Some "debug")
    = Ok ["`debug` key not found in /work/config.yml"].
Proof.
  split; [reflexivity|].
  apply (print_config_falsy_not_found RouteInfo.plain_repr RouteInfo.plain_container_repr
           (λ _, "") (λ _, "") tech_zero ∅ sample_env "debug" (PInt 0));
    [discriminate | reflexivity | reflexivity | reflexivity].
Defined.

Lemma provenance_annotation_witness :
  let r := annotate not_a_repository sample_env (PDict []) in
  select ["info"; "version"] r.1 = Some (PStr "2.4.9")
  ∧ r.2 = None
  ∧ select ["info"; "git_hash"] r.1 = None
  ∧ select ["git_hash_cwd"] r.1 = None.
Proof.
  destruct (provenance_annotation not_a_repository sample_env []) as [Hv Hrest].
  split; [exact Hv|].
  apply Hrest.
  - intros x Hx. discriminate Hx.
  - intros p x Hx. injection Hx as <-. reflexivity.
Defined.

End Config.

(** ** [config.py], lines 184 to 186: the rounding resolution

    Floats are taken as the real numbers they denote and [np.log10] as
    the real logarithm: rounding errors of the division and of the
    logarithm are not modelled. *)

Module Grid.
Import Reals Lra Qreals.
Import OmegaConf Config.
Local Open Scope R_scope.

Definition log10 (x : R) : R := ln x / ln 10.

(** [int(r)] of a float: the integer part, rounding toward zero. *)
Definition py_int (r : R) : Z :=
  if Rle_dec 0 r then Int_part r else (- Int_part (- r))%Z.

(** [floor(r)], rounding toward negative infinity. *)
Definition floor (r : R) : Z := Int_part r.

Definition to_float (v : pyval) : res R :=
  match v with
  | PInt z => Ok (IZR z)
  | PFloat q => Ok (Q2R q)
  | PBool b => Ok (if b then 1 else 0)
  | _ => Raise (TypeError "unsupported operand type(s) for /")
  end.

(** [a / b] on numbers *)
Definition true_div (a b : pyval) : res R :=
  x ← to_float a;
  y ← to_float b;
  if Req_dec_T y 0 then Raise (ZeroDivisionError "division by zero")
  else Ok (x / y).

(** [int(np.log10(x))]: the logarithm of zero is minus infinity and
    that of a negative number is not a number, and [int] refuses
    both. *)
Definition int_log10 (x : R) : res Z :=
  if Rlt_dec 0 x then Ok (py_int (log10 x))
  else if Req_dec_T x 0 then
    Raise (OtherError "OverflowError" "cannot convert float infinity to integer")
  else Raise (ValueError "cannot convert float NaN to integer").

Definition GRID_PER_UNIT (TECH : pyval) : res R :=
  tech ← cfg_getattr TECH "tech";
  GRID_RESOLUTION ← cfg_getattr tech "grid_resolution";
  tech ← cfg_getattr TECH "tech";
  grid_unit ← cfg_getattr tech "grid_unit";
  true_div grid_unit GRID_RESOLUTION.

Definition GRID_ROUNDING_RESOLUTION (TECH : pyval) : res Z :=
  per_unit ← GRID_PER_UNIT TECH;
  int_log10 per_unit.

(** A configuration with a grid unit and a grid resolution. *)
Definition grid_config (grid_unit grid_resolution : pyval) : pyval :=
  PDict [(KStr "tech", PDict [(KStr "grid_unit", grid_unit);
                              (KStr "grid_resolution", grid_resolution)])].

Lemma ln_10_pos : 0 < ln 10.
Proof. rewrite <- ln_1. apply ln_increasing; lra. Qed.

Lemma log10_nonneg x : 1 <= x → 0 <= log10 x.
Proof.
  intros Hx. unfold log10. pose proof ln_10_pos.
  assert (0 <= ln x).
  { destruct Hx as [Hx | <-]; [|rewrite ln_1; lra].
    left. rewrite <- ln_1. apply ln_increasing; lra. }
  apply Rmult_le_pos; [done|]. left. by apply Rinv_0_lt_compat.
Qed.

Lemma log10_neg x : 0 < x → x < 1 → log10 x < 0.
Proof.
  intros H0 H1. unfold log10. pose proof ln_10_pos.
  assert (ln x < 0) by (rewrite <- ln_1; by apply ln_increasing).
  assert (0 < / ln 10) by by apply Rinv_0_lt_compat.
  unfold Rdiv. nra.
Qed.

Lemma log10_half : -1 < log10 (1 / 2) < 0.
Proof.
  split; [|apply log10_neg; lra].
  unfold log10. replace (1 / 2) with (/ 2) by lra.
  rewrite ln_Rinv by lra.
  pose proof ln_10_pos as H10.
  assert (ln 2 < ln 10) as H by (apply ln_increasing; lra).
  apply (Rmult_lt_reg_r (ln 10)); [done|].
  unfold Rdiv. rewrite Rmult_assoc, Rinv_l by lra. lra.
Qed.

Lemma grid_per_unit_value gu gr x y :
  to_float gu = Ok x → to_float gr = Ok y → y ≠ 0 →
  GRID_PER_UNIT (grid_config gu gr) = Ok (x / y).
Proof.
  intros Hx Hy Hne. unfold GRID_PER_UNIT, true_div. simpl.
  rewrite Hx, Hy. simpl. by destruct (Req_dec_T y 0).
Qed.




End Grid.

(** ** [config.py], lines 149 to 160: the JSON writer

    [json.dump] is the standard library's; what follows is its encoder
    on the values of [pyval], with [sort_keys=True] and a [default]
    hook.  The output is kept as a JSON tree and not as text, so
    [indent=2] has nothing to act on.  [fuel] bounds the nesting the
    encoder may go down, as the interpreter's recursion limit does. *)

Module Json.

Inductive json :=
  | JNull
  | JBool (b : bool)
  | JInt (z : Z)
  | JFloat (q : Q)
  | JStr (s : string)
  | JArr (l : list json)
  | JObj (m : list (string * json)).

Fixpoint mapM {A B} (f : A → res B) (l : list A) : res (list B) :=
  match l with
  | [] => Ok []
  | x :: l' =>
      y ← f x;
      ys ← mapM f l';
      Ok (y :: ys)
  end.

(** [a < b] on dictionary keys: strings compare with strings and
    ints with ints; any other pair is taken as unordered. *)
Definition key_lt (a b : pykey) : res bool :=
  match a, b with
  | KStr x, KStr y => Ok (String.ltb x y)
  | KInt x, KInt y => Ok (x <? y)
  | _, _ => Raise (TypeError "'<' not supported between instances")
  end.

Fixpoint insert_sorted (kv : pykey * pyval) (l : list (pykey * pyval))
    : res (list (pykey * pyval)) :=
  match l with
  | [] => Ok [kv]
  | kv' :: l' =>
      lt ← key_lt kv.1 kv'.1;
      if lt : bool then Ok (kv :: l)
      else
        r ← insert_sorted kv l';
        Ok (kv' :: r)
  end.

(** [sorted(dct.items())]: a dictionary holds each key once, so items
    are ordered by their keys alone. *)
Fixpoint sorted_items (d : list (pykey * pyval)) : res (list (pykey * pyval)) :=
  match d with
  | [] => Ok []
  | kv :: d' =>
      r ← sorted_items d';
      insert_sorted kv r
  end.

(** The text a key is written as; a key that is neither a string nor
    a number is refused. *)
Definition key_str (k : pykey) : res string :=
  match k with
  | KStr s => Ok s
  | KInt z => Ok (pretty z)
  | KObj cls _ =>
      Raise (TypeError ("keys must be str, int, float, bool or None, not " +:+ cls))
  end.

Definition recursion_error : exn :=
  OtherError "RecursionError" "maximum recursion depth exceeded while encoding a JSON object".

Fixpoint iterencode (fuel : nat) (default : pyval → res pyval) (o : pyval)
    : res json :=
  match fuel with
  | O => Raise recursion_error
  | S fuel =>
      match o with
      | PStr s => Ok (JStr s)
      | PNone => Ok JNull
      | PBool b => Ok (JBool b)
      | PInt z => Ok (JInt z)
      | PFloat q => Ok (JFloat q)
      | PList l =>
          js ← mapM (iterencode fuel default) l;
          Ok (JArr js)
      | PDict d =>
          items ← sorted_items d;
          js ← mapM (λ kv : pykey * pyval,
                       k ← key_str kv.1;
                       j ← iterencode fuel default kv.2;
                       Ok (k, j)) items;
          Ok (JObj js)
      | _ =>
          o' ← default o;
          iterencode fuel default o'
      end
  end.

(** What a file holds after a write: the whole tree, or the part that
    was written when the encoder raised. *)
Inductive content :=
  | Complete (j : json)
  | Truncated.

Section Writer.
Variable float_repr : Q → string.
Variable container_repr : pyval → string.
Local Abbreviation str := (py_str float_repr container_repr).

Definition not_serializable (z : pyval) : string :=
  "Object " +:+ str z +:+ " of type " +:+ py_type z +:+ " is not serializable".

Definition complex_encoder (z : pyval) : res pyval :=
  match z with
  | PPath _ => Ok (PStr (str z))
  | _ => Raise (TypeError (not_serializable z))
  end.

(** [write_config]: the file is opened for writing, which empties it,
    and the encoder's output goes into it piece by piece. *)
Definition write_config (fuel : nat) (config : pyval) (json_out_path : list string)
    (fs : gmap (list string) content) : gmap (list string) content * res () :=
  match iterencode fuel complex_encoder config with
  | Ok j => (<[json_out_path := Complete j]> fs, Ok ())
  | Raise e => (<[json_out_path := Truncated]> fs, Raise e)
  end.

(** The structure with every path in value position replaced by its
    string form. *)
Fixpoint stringify (v : pyval) : pyval :=
  match v with
  | PPath _ => PStr (str v)
  | PList l => PList (map stringify l)
  | PDict d => PDict (map (λ kv, (kv.1, stringify kv.2)) d)
  | _ => v
  end.
End Writer.

(** The values in value position that JSON has no form for and the
    hook does not convert. *)
Fixpoint unsupported_values (v : pyval) : list pyval :=
  match v with
  | PObj _ _ _ => [v]
  | PList l => flat_map unsupported_values l
  | PDict d => flat_map (λ kv, unsupported_values kv.2) d
  | _ => []
  end.

Definition is_KStr (k : pykey) : bool :=
  match k with KStr _ => true | _ => false end.

(** Every dictionary in the structure has string keys. *)
Fixpoint string_keyed (v : pyval) : bool :=
  match v with
  | PList l => forallb string_keyed l
  | PDict d => forallb (λ kv, is_KStr kv.1 && string_keyed kv.2) d
  | _ => true
  end.

(** The nesting the encoder goes down to on a structure, the call of
    the hook on a path counting for one level. *)
Fixpoint depth (v : pyval) : nat :=
  match v with
  | PList l => S (foldr (λ x n, Nat.max (depth x) n) 0%nat l)
  | PDict d => S (foldr (λ kv n, Nat.max (depth kv.2) n) 0%nat d)
  | PPath _ => 2%nat
  | _ => 1%nat
  end.

Definition sample_config : pyval :=
  PDict [(KStr "sp", PPath ["/"; "lib"; "gdslib"; "sp"]);
         (KStr "layers", PList [PInt 1; PInt 2]);
         (KStr "name", PStr "generic")].

Example write_sample :
  iterencode 10 (complex_encoder RouteInfo.plain_repr RouteInfo.plain_container_repr)
    sample_config
  = Ok (JObj [("layers", JArr [JInt 1; JInt 2]);
              ("name", JStr "generic");
              ("sp", JStr "/lib/gdslib/sp")]).
Proof. vm_compute. reflexivity. Qed.

Example write_set :
  iterencode 10 (complex_encoder RouteInfo.plain_repr RouteInfo.plain_container_repr)
    (PDict [(KStr "a", PObj "<class 'set'>" "{1, 2}" true)])
  = Raise (TypeError "Object {1, 2} of type <class 'set'> is not serializable").
Proof. vm_compute. reflexivity. Qed.

(** *** Sorting string-keyed items *)

Lemma insert_sorted_str kv l :
  is_KStr kv.1 = true → Forall (λ kv, is_KStr kv.1 = true) l →
  ∃ r, insert_sorted kv l = Ok r ∧ r ≡ₚ kv :: l.
Proof.
  intros Hk. induction l as [|kv' l IH]; intros Hl; simpl.
  - by exists [kv].
  - apply Forall_cons in Hl as [Hk' Hl].
    destruct kv as [[x| |] v], kv' as [[y| |] v']; try done. simpl.
    destruct (String.ltb x y).
    + by eexists.
    + destruct (IH Hl) as (r & -> & Hr). simpl. eexists. split; [done|].
      rewrite Hr. apply Permutation_swap.
Qed.

Lemma sorted_items_str d :
  Forall (λ kv, is_KStr kv.1 = true) d →
  ∃ r, sorted_items d = Ok r ∧ r ≡ₚ d.
Proof.
  induction d as [|kv d IH]; intros Hd; simpl.
  - by exists [].
  - apply Forall_cons in Hd as [Hk Hd].
    destruct (IH Hd) as (r & -> & Hr). simpl.
    destruct (insert_sorted_str kv r Hk) as (r' & -> & Hr').
    { by rewrite Hr. }
    exists r'. split; [done|]. by rewrite Hr', Hr.
Qed.

(** Sorting looks at keys only. *)
Lemma insert_sorted_values (f : pyval → pyval) kv l :
  insert_sorted (kv.1, f kv.2) (map (λ kv, (kv.1, f kv.2)) l)
  = (r ← insert_sorted kv l; Ok (map (λ kv, (kv.1, f kv.2)) r)).
Proof.
  induction l as [|kv' l IH]; simpl; [done|].
  destruct (key_lt kv.1 kv'.1) as [[]|]; simpl; [done| |done].
  rewrite IH. by destruct (insert_sorted kv l).
Qed.

Lemma sorted_items_values (f : pyval → pyval) d :
  sorted_items (map (λ kv, (kv.1, f kv.2)) d)
  = (r ← sorted_items d; Ok (map (λ kv, (kv.1, f kv.2)) r)).
Proof.
  induction d as [|kv d IH]; simpl; [done|].
  rewrite IH. destruct (sorted_items d) as [r|]; simpl; [|done].
  apply insert_sorted_values.
Qed.

(** *** Going through a list of items *)

Lemma mapM_both {A B} (g g' : A → res B) (h : A → A) l :
  Forall (λ x, ∃ j, g x = Ok j ∧ g' (h x) = Ok j) l →
  ∃ js, mapM g l = Ok js ∧ mapM g' (map h l) = Ok js.
Proof.
  induction 1 as [|x l (j & Hj & Hj') _ (js & Hjs & Hjs')]; simpl.
  - by exists [].
  - rewrite Hj, Hj', Hjs, Hjs'. by eexists.
Qed.

Lemma flat_map_nil {A B} (f : A → list B) l :
  flat_map f l = [] ↔ Forall (λ x, f x = []) l.
Proof.
  induction l as [|x l IH]; simpl.
  - split; [constructor | done].
  - split.
    + intros [Hx Hl]%app_eq_nil. constructor; [done | by apply IH].
    + intros [Hx Hl]%Forall_cons. rewrite Hx. by apply IH.
Qed.

Lemma mapM_first_error {A B} (g : A → res B) (U : A → list pyval)
    (E : pyval → exn) l :
  Forall (λ x, (U x = [] → ∃ j, g x = Ok j)
               ∧ (U x ≠ [] → ∃ o, o ∈ U x ∧ g x = Raise (E o))) l →
  flat_map U l ≠ [] →
  ∃ o, o ∈ flat_map U l ∧ mapM g l = Raise (E o).
Proof.
  induction 1 as [|x l [Hok Herr] _ IH]; simpl; [done|].
  intros Hne. destruct (U x) as [|u us] eqn:HU.
  - destruct (Hok eq_refl) as (j & ->). simpl in *.
    destruct (IH Hne) as (o & Ho & ->). by exists o.
  - destruct Herr as (o & Ho & ->); [done|].
    exists o. split; [|done]. apply elem_of_app. by left.
Qed.

Lemma depth_list_le x (l : list pyval) :
  x ∈ l → (depth x ≤ foldr (λ x n, Nat.max (depth x) n) 0 l)%nat.
Proof.
  induction 1 as [x l | x y l _ IH]; simpl; lia.
Qed.

Lemma depth_dict_le kv (d : list (pykey * pyval)) :
  kv ∈ d → (depth kv.2 ≤ foldr (λ kv n, Nat.max (depth kv.2) n) 0 d)%nat.
Proof.
  induction 1 as [x l | x y l _ IH]; simpl; lia.
Qed.

Lemma Forall_both {A} (P Q : A → Prop) l :
  Forall P l → Forall Q l → Forall (λ x, P x ∧ Q x) l.
Proof. intros HP HQ. apply Forall_and. by split. Qed.

Section Serialization.
Variable float_repr : Q → string.
Variable container_repr : pyval → string.
Local Abbreviation hook := (complex_encoder float_repr container_repr).
Local Abbreviation in_strings := (stringify float_repr container_repr).
Local Abbreviation message := (not_serializable float_repr container_repr).

(** With string keys and fuel for its depth, a structure without
    unsupported values is encoded, to the same tree as the structure
    with its paths put in strings; a structure with unsupported values
    makes the encoder raise the hook's error for one of them. *)
Lemma iterencode_cases v : ∀ fuel,
  string_keyed v = true → (depth v ≤ fuel)%nat →
  (unsupported_values v = [] →
     ∃ j, iterencode fuel hook v = Ok j
          ∧ iterencode fuel hook (in_strings v) = Ok j)
  ∧ (unsupported_values v ≠ [] →
     ∃ o, o ∈ unsupported_values v
          ∧ iterencode fuel hook v = Raise (TypeError (message o))).
Proof.
  induction v as [ |b|z|q|s|p|l IH|d IH|ty repr t] using pyval_nested_ind;
    intros fuel Hkeys Hdepth;
    (destruct fuel as [|fuel]; [simpl in Hdepth; lia|]).
  1-5: by (split; [intros _; eexists; split; reflexivity | done]).
  - destruct fuel as [|fuel]; [simpl in Hdepth; lia|].
    split; [intros _; eexists; split; reflexivity | done].
  - simpl in Hkeys, Hdepth. rewrite forallb_forall in Hkeys.
    assert (Forall (λ x, (unsupported_values x = [] →
                            ∃ j, iterencode fuel hook x = Ok j
                                 ∧ iterencode fuel hook (in_strings x) = Ok j)
                         ∧ (unsupported_values x ≠ [] →
                            ∃ o, o ∈ unsupported_values x
                                 ∧ iterencode fuel hook x = Raise (TypeError (message o)))) l)
      as Hall.
    { apply Forall_forall. intros x Hx.
      rewrite Forall_forall in IH. apply (IH x Hx).
      - apply Hkeys. by apply list_elem_of_In.
      - pose proof (depth_list_le x l Hx). lia. }
    simpl. split.
    + intros Hnone. apply flat_map_nil in Hnone.
      destruct (mapM_both (iterencode fuel hook) (iterencode fuel hook) in_strings l)
        as (js & -> & ->).
      { eapply Forall_impl; [exact (Forall_both _ _ _ Hall Hnone)|]. simpl.
        intros x [[Hok _] Hx]. by apply Hok. }
      by eexists.
    + intros Hsome.
      destruct (mapM_first_error (iterencode fuel hook) unsupported_values
                  (λ o, TypeError (message o)) l) as (o & Ho & ->); [|done|by exists o].
      eapply Forall_impl; [exact Hall|]. simpl.
      intros x [Hok Herr]. split; [|done].
      intros Hx. destruct (Hok Hx) as (j & -> & _). by eexists.
  - simpl in Hkeys, Hdepth. rewrite forallb_forall in Hkeys.
    assert (Forall (λ kv, is_KStr kv.1 = true) d) as Hstr.
    { apply Forall_forall. intros kv Hkv%list_elem_of_In.
      by destruct (andb_prop _ _ (Hkeys kv Hkv)). }
    destruct (sorted_items_str d Hstr) as (items & Hsorted & Hperm).
    set (item := λ kv : pykey * pyval,
           k ← key_str kv.1; j ← iterencode fuel hook kv.2; Ok (k, j)).
    assert (Forall (λ kv, (unsupported_values kv.2 = [] →
                             ∃ j, item kv = Ok j ∧ item (kv.1, in_strings kv.2) = Ok j)
                          ∧ (unsupported_values kv.2 ≠ [] →
                             ∃ o, o ∈ unsupported_values kv.2
                                  ∧ item kv = Raise (TypeError (message o)))) items)
      as Hall.
    { apply Forall_forall. intros [k x] Hkv. rewrite Hperm in Hkv.
      rewrite Forall_forall in IH, Hstr.
      specialize (Hstr _ Hkv). destruct k as [ks| |]; try done.
      destruct (IH _ Hkv fuel) as [Hok Herr].
      - apply list_elem_of_In in Hkv. by destruct (andb_prop _ _ (Hkeys _ Hkv)).
      - pose proof (depth_dict_le _ d Hkv). simpl in *. lia.
      - unfold item. simpl in *. split.
        + intros Hx. destruct (Hok Hx) as (j & -> & ->). by eexists.
        + intros Hx. destruct (Herr Hx) as (o & Ho & ->). by exists o. }
    simpl. rewrite sorted_items_values, Hsorted. simpl. fold item. split.
    + intros Hnone. apply flat_map_nil in Hnone. rewrite <- Hperm in Hnone.
      destruct (mapM_both item item (λ kv, (kv.1, in_strings kv.2)) items)
        as (js & -> & ->).
      { eapply Forall_impl; [exact (Forall_both _ _ _ Hall Hnone)|]. simpl.
        intros x [[Hok _] Hx]. by apply Hok. }
      by eexists.
    + intros Hsome.
      assert (flat_map (λ kv : pykey * pyval, unsupported_values kv.2) items ≠ []) as Hsome'.
      { intros Hnil. apply Hsome. apply flat_map_nil. rewrite <- Hperm.
        by apply flat_map_nil. }
      destruct (mapM_first_error item (λ kv, unsupported_values kv.2)
                  (λ o, TypeError (message o)) items) as (o & Ho & ->); [|done|].
      { eapply Forall_impl; [exact Hall|]. simpl.
        intros x [Hok Herr]. split; [|done].
        intros Hx. destruct (Hok Hx) as (j & -> & _). by eexists. }
      exists o. split; [|done].
      apply list_elem_of_In, in_flat_map in Ho as (kv & Hkv & Ho).
      apply list_elem_of_In, in_flat_map. exists kv. split; [|done].
      apply list_elem_of_In. rewrite <- Hperm. by apply list_elem_of_In.
  - split; [done|]. intros _. exists (PObj ty repr t). split; [|done].
    apply list_elem_of_here.
Qed.

End Serialization.

Definition plain_hook : pyval → res pyval :=
  complex_encoder RouteInfo.plain_repr RouteInfo.plain_container_repr.



End Json.

(** * Further properties of the code *)

(** ** [route_info.py]: the shape of the result *)

Module RouteInfoFacts.
Import RouteInfo.

Section Shape.
Variable float_repr : Q → string.
Variable container_repr : pyval → string.
Local Abbreviation route_info := (route_info float_repr container_repr).
Local Abbreviation length_key := (length_key float_repr container_repr).
Local Abbreviation taper_length_key := (taper_length_key float_repr container_repr).

(** The effective length the entries are filled with. *)
Definition effective (length length_eff : pyval) : pyval :=
  match length_eff with PNone => length | _ => length_eff end.

Lemma before_extras_lookup cs l e tp :
  let d := route_info cs l e tp ∅ in
  d !! "type" = Some cs
  ∧ d !! "length" = Some (effective l e)
  ∧ d !! length_key cs = Some (effective l e)
  ∧ d !! "weight" = Some (effective l e)
  ∧ d !! taper_length_key cs = (if truthy tp then Some l else None).
Proof.
  intros d. subst d. rewrite route_info_unfold. simpl.
  rewrite (left_id_L ∅ (∪)). fold (effective l e).
  destruct (base_dict_lookup float_repr container_repr cs (effective l e))
    as (Ht & Hl & Htl & Hw).
  destruct (taper_key_base float_repr container_repr cs) as (N1 & N2 & N3 & N4).
  destruct (truthy tp).
  - rewrite !lookup_insert_ne by done. rewrite lookup_insert_eq. done.
  - repeat split; try done. by apply base_dict_other.
Qed.

(** X1. Whatever the arguments and the extras, the result has the four
    base keys [type], [length], ["{cs_type}_length"] and [weight], so
    at least four entries. *)
Theorem route_info_base_keys (cs l e tp : pyval) (kwargs : gmap string pyval) :
  let d := route_info cs l e tp kwargs in
  is_Some (d !! "type") ∧ is_Some (d !! "length")
  ∧ is_Some (d !! length_key cs) ∧ is_Some (d !! "weight")
  ∧ (4 ≤ size d)%nat.
Proof.
  intros d.
  destruct (before_extras_lookup cs l e tp) as (Ht & Hl & Htl & Hw & _).
  assert (∀ k v, route_info cs l e tp ∅ !! k = Some v → is_Some (d !! k)) as Hin.
  { intros k v Hk. subst d. destruct (kwargs !! k) as [w|] eqn:Hkw.
    - exists w. by apply route_info_kwargs_hit.
    - exists v. by rewrite route_info_kwargs_miss. }
  destruct (length_key_base float_repr container_repr cs) as (N1 & N2 & N3).
  repeat split; [by eapply Hin ..|].
  rewrite <- size_dom.
  set (keys := ["type"; "length"; length_key cs; "weight"]).
  assert (NoDup keys) as Hnd.
  { unfold keys. repeat (apply NoDup_cons; split);
      [| | | apply not_elem_of_nil | apply NoDup_nil_2];
      rewrite ?not_elem_of_cons; repeat split; auto using not_elem_of_nil. }
  assert (list_to_set keys ⊆ dom d) as Hsub.
  { intros k Hk%elem_of_list_to_set. apply elem_of_dom. unfold keys in Hk.
    repeat (apply elem_of_cons in Hk as [->|Hk]; [by eapply Hin|]).
    by apply elem_of_nil in Hk. }
  apply subseteq_size in Hsub. by rewrite size_list_to_set in Hsub.
Qed.

(** X2. Unless the extras name them, [length], ["{cs_type}_length"]
    and [weight] hold one and the same value: the effective length
    when one is given, the physical length when it is [None]. *)
Theorem route_info_lengths_agree (cs l e tp : pyval) (kwargs : gmap string pyval) :
  kwargs !! "length" = None → kwargs !! length_key cs = None →
  kwargs !! "weight" = None →
  let d := route_info cs l e tp kwargs in
  d !! "length" = Some (effective l e)
  ∧ d !! length_key cs = d !! "length"
  ∧ d !! "weight" = d !! "length".
Proof.
  intros H1 H2 H3 d. subst d.
  destruct (before_extras_lookup cs l e tp) as (_ & Hl & Htl & Hw & _).
  rewrite (route_info_kwargs_miss _ _ _ _ _ _ kwargs _ H1),
    (route_info_kwargs_miss _ _ _ _ _ _ kwargs _ H2),
    (route_info_kwargs_miss _ _ _ _ _ _ kwargs _ H3).
  by rewrite Hl, Htl, Hw.
Qed.

(** X3. The taper entry follows the truth value of [taper]: any value
    Python takes as true adds ["{cs_type}_taper_length"] with the
    physical length, any value it takes as false adds nothing, and an
    extra under that key wins either way. *)
Theorem route_info_taper_entry (cs l e tp : pyval) (kwargs : gmap string pyval) :
  route_info cs l e tp kwargs !! taper_length_key cs
  = match kwargs !! taper_length_key cs with
    | Some v => Some v
    | None => if truthy tp then Some l else None
    end.
Proof.
  destruct (kwargs !! taper_length_key cs) as [v|] eqn:Hk.
  - by apply route_info_kwargs_hit.
  - rewrite route_info_kwargs_miss by done.
    by destruct (before_extras_lookup cs l e tp) as (_ & _ & _ & _ & ->).
Qed.

Variable CrossSectionSpec : Type.
Variable get_cross_section : CrossSectionSpec → res CrossSection.
Variable spec_str : CrossSectionSpec → string.
Local Abbreviation route_info_from_cs :=
  (route_info_from_cs float_repr container_repr CrossSectionSpec
     get_cross_section spec_str).

Lemma route_info_from_cs_Ok cs l e (kwargs : gmap string pyval) x :
  get_cross_section cs = Ok x →
  kwargs !! "cs_type" = None → kwargs !! "length" = None →
  kwargs !! "length_eff" = None →
  route_info_from_cs cs l e kwargs
  = Ok (route_info (default (PStr (spec_str cs)) (info x !! "type")) l e
          (default (PBool false) (kwargs !! "taper")) (delete "taper" kwargs)).
Proof.
  unfold RouteInfo.route_info_from_cs, call_route_info.
  intros -> H1 H2 H3. simpl. by rewrite H1, H2, H3.
Qed.

(** X4. [route_info_from_cs] passes on the error of the registry, and
    raises [TypeError] when the registry answers and the extras hold an
    entry named [cs_type]. *)
Theorem route_info_from_cs_errors cs l e (kwargs : gmap string pyval) :
  (∀ x, get_cross_section cs = Raise x → route_info_from_cs cs l e kwargs = Raise x)
  ∧ (∀ x v, get_cross_section cs = Ok x → kwargs !! "cs_type" = Some v →
       route_info_from_cs cs l e kwargs
       = Raise (TypeError "route_info() got multiple values for argument 'cs_type'")).
Proof.
  unfold RouteInfo.route_info_from_cs, call_route_info. split.
  - by intros x ->.
  - intros x v -> Hk. simpl. by rewrite Hk.
Qed.

(** X5. A result of [route_info_from_cs] never has an entry named
    [taper], [cs_type] or [length_eff]: these names are parameters of
    [route_info], and an extra called [taper] acts as that parameter. *)
Theorem route_info_from_cs_no_parameter_keys cs l e (kwargs d : gmap string pyval) :
  route_info_from_cs cs l e kwargs = Ok d →
  d !! "taper" = None ∧ d !! "cs_type" = None ∧ d !! "length_eff" = None.
Proof.
  unfold RouteInfo.route_info_from_cs, call_route_info. intros H.
  apply bind_Ok in H as (x & _ & H).
  destruct (bool_decide (is_Some (kwargs !! "cs_type"))) eqn:H1; [done|].
  destruct (bool_decide (is_Some (kwargs !! "length"))) eqn:H2; [done|].
  destruct (bool_decide (is_Some (kwargs !! "length_eff"))) eqn:H3; [done|].
  injection H as <-.
  apply bool_decide_eq_false in H1, H3.
  rewrite <- eq_None_not_Some in H1, H3.
  set (t := default (PStr (spec_str cs)) (info x !! "type")).
  set (tp := default (PBool false) (kwargs !! "taper")).
  assert (∀ k, k ≠ "type" → k ≠ "length" → k ≠ "weight" →
            k ≠ length_key t → k ≠ taper_length_key t →
            route_info t l e tp ∅ !! k = None) as Hother.
  { intros k ? ? ? ? ?. rewrite route_info_unfold. simpl.
    rewrite (left_id_L ∅ (∪)).
    destruct (truthy tp); [rewrite lookup_insert_ne by done|];
      by apply base_dict_other. }
  assert (∀ k, (String.length k < 7)%nat → k ≠ length_key t ∧ k ≠ taper_length_key t)
    as Hshort.
  { intros k Hk. split; apply not_eq_sym, suffixed_ne; simpl; lia. }
  assert ("length_eff" ≠ length_key t ∧ "length_eff" ≠ taper_length_key t) as [N1 N2].
  { split; [|apply not_eq_sym, suffixed_ne; simpl; lia].
    unfold RouteInfo.length_key. intros Heq.
    destruct (py_str float_repr container_repr t) as [|c1 [|c2 [|c3 [|c4 s]]]];
      try discriminate.
    apply (f_equal String.length) in Heq. simpl in Heq.
    rewrite length_append in Heq. simpl in Heq. lia. }
  repeat split.
  - rewrite route_info_kwargs_miss by apply lookup_delete_eq.
    destruct (Hshort "taper") as [? ?]; [simpl; lia|]. by apply Hother.
  - rewrite route_info_kwargs_miss by by rewrite lookup_delete_ne.
    apply Hother; try done; [|apply not_eq_sym, suffixed_ne; simpl; lia].
    unfold RouteInfo.length_key. intros Heq.
    destruct (py_str float_repr container_repr t) as [|c s]; [discriminate|].
    apply (f_equal String.length) in Heq. simpl in Heq.
    rewrite length_append in Heq. simpl in Heq. lia.
  - rewrite route_info_kwargs_miss by by rewrite lookup_delete_ne.
    by apply Hother.
Qed.
End Shape.

Lemma route_info_lengths_agree_witness :
  let d := build (PStr "rib") (PInt 5) PNone (PBool false) {[ "loss" := PFloat (1 # 10) ]} in
  d !! "length" = Some (PInt 5)
  ∧ d !! "rib_length" = d !! "length"
  ∧ d !! "weight" = d !! "length".
Proof.
  apply (route_info_lengths_agree plain_repr plain_container_repr
           (PStr "rib") (PInt 5) PNone (PBool false) {[ "loss" := PFloat (1 # 10) ]});
    vm_compute; reflexivity.
Defined.

Lemma route_info_from_cs_errors_witness :
  route_info_from_cs plain_repr plain_container_repr string one_registry id
    "ridge" (PInt 10) PNone ∅
  = Raise (ValueError "unknown cross-section")
  ∧ route_info_from_cs plain_repr plain_container_repr string one_registry id
      "strip" (PInt 10) PNone {[ "cs_type" := PStr "rib" ]}
    = Raise (TypeError "route_info() got multiple values for argument 'cs_type'").
Proof.
  split.
  - apply (proj1 (route_info_from_cs_errors plain_repr plain_container_repr
                    string one_registry id "ridge" (PInt 10) PNone ∅)).
    reflexivity.
  - apply (proj2 (route_info_from_cs_errors plain_repr plain_container_repr
                    string one_registry id "strip" (PInt 10) PNone
                    {[ "cs_type" := PStr "rib" ]})
             {| info := {[ "type" := PStr "strip" ]} |} (PStr "rib"));
      vm_compute; reflexivity.
Defined.

Lemma route_info_from_cs_no_parameter_keys_witness :
  let kw : gmap string pyval := {[ "taper" := PBool true ]} in
  let x := {| info := {[ "type" := PStr "strip" ]} |} in
  let d := route_info plain_repr plain_container_repr
             (default (PStr (id "strip")) (info x !! "type")) (PInt 10) (PInt 8)
             (default (PBool false) (kw !! "taper")) (delete "taper" kw) in
  d !! "taper" = None ∧ d !! "cs_type" = None ∧ d !! "length_eff" = None.
Proof.
  intros kw x d.
  apply (route_info_from_cs_no_parameter_keys plain_repr plain_container_repr
           string one_registry id "strip" (PInt 10) (PInt 8) kw d).
  apply (route_info_from_cs_Ok plain_repr plain_container_repr
           string one_registry id "strip" (PInt 10) (PInt 8) kw x);
    vm_compute; reflexivity.
Defined.

End RouteInfoFacts.

(** ** [config.py], lines 46 to 55: more on the layers *)

Module LayersFacts.
Import OmegaConf Layers.

(** The top-level keys of a configuration. *)
Definition top_keys (v : pyval) : list pykey :=
  match v with
  | PDict d => d.*1
  | _ => []
  end.

Lemma dict_set_keys k k' v d :
  k ∈ (dict_set k' v d).*1 ↔ k = k' ∨ k ∈ d.*1.
Proof.
  induction d as [|[k2 v2] d IH]; simpl.
  - rewrite list_elem_of_singleton, elem_of_nil. tauto.
  - destruct (decide (k' = k2)) as [->|Hne]; simpl.
    + rewrite !elem_of_cons. tauto.
    + rewrite !elem_of_cons, IH. tauto.
Qed.

Lemma map_merge_keys d s r k :
  map_merge d s = Ok r → k ∈ r.*1 ↔ k ∈ d.*1 ∨ k ∈ s.*1.
Proof.
  revert d. induction s as [|[k' sv] s IH]; intros d; simpl.
  - intros [= ->]. rewrite elem_of_nil. tauto.
  - intros H. apply bind_Ok in H as (n & _ & H).
    rewrite (IH _ H), dict_set_keys, elem_of_cons. simpl. tauto.
Qed.

Lemma merge_all_keys ovs : ∀ b R,
  merge_all (PDict b) ovs = Ok R →
  is_dict R = true
  ∧ ∀ k, k ∈ top_keys R ↔ k ∈ b.*1 ∨ ∃ L, L ∈ ovs ∧ k ∈ top_keys L.
Proof.
  induction ovs as [|L ovs IH]; intros b R; simpl.
  - intros [= <-]. split; [done|]. intros k. simpl. split; [by left|].
    intros [?|(L & HL & _)]; [done | by apply elem_of_nil in HL].
  - intros H. apply bind_Ok in H as (T & HT & H).
    destruct (merge_with_Ok _ _ _ HT) as [(dm & sm & rm & [= <-] & -> & -> & Hmm)|(dl & sl & ? & _)];
      [|done].
    destruct (IH _ _ H) as [Hd Hk]. split; [done|].
    intros k. rewrite Hk, (map_merge_keys _ _ _ _ Hmm). split.
    + intros [[?|?]|(L & HL & ?)].
      * by left.
      * right. exists (PDict sm). split; [apply list_elem_of_here | done].
      * right. exists L. split; [by apply list_elem_of_further | done].
    + intros [?|(L & HL & HkL)]; [by left; left|].
      apply elem_of_cons in HL as [->|HL]; [by left; right|].
      right. by exists L.
Qed.

(** X6. The packaged default is not optional: when its file is absent
    or unreadable, resolution raises whatever the two override files
    hold, with [FileNotFoundError] when the file is absent. *)
Theorem resolve_needs_default (default_config home_config cwd_config : file) :
  f_exists default_config = false ∨ f_readable default_config = false →
  ∃ x, resolve default_config home_config cwd_config = Raise x
       ∧ (f_exists default_config = false →
          x = FileNotFoundError "No such file or directory").
Proof.
  unfold resolve, load. intros [H|H]; rewrite H; simpl.
  - by eexists.
  - destruct (f_exists default_config); simpl; eexists; split; done.
Qed.

Lemma resolve_needs_default_witness :
  ∃ x, resolve missing_file (yaml_file sample_cwd) (yaml_file sample_cwd) = Raise x
       ∧ (f_exists missing_file = false →
          x = FileNotFoundError "No such file or directory").
Proof. apply resolve_needs_default. by left. Defined.

(** X7. With neither override file taking part, the resolved
    configuration is the packaged default, unchanged. *)
Theorem resolve_default_alone (default_config home_config cwd_config : file) :
  present home_config = false → present cwd_config = false →
  resolve default_config home_config cwd_config = load default_config.
Proof.
  unfold resolve, overlay. intros -> ->.
  by destruct (load default_config).
Qed.

Lemma resolve_default_alone_witness :
  resolve (yaml_file sample_default) missing_file (unreadable_file sample_cwd)
  = load (yaml_file sample_default).
Proof. apply resolve_default_alone; reflexivity. Defined.


Definition malformed_file : file :=
  {| f_exists := true; f_readable := true;
     f_yaml := Raise (ParserError "while parsing a block mapping") |}.


(** X9. When the default is a dictionary and resolution succeeds, the
    resolved configuration is a dictionary whose top-level keys are
    exactly the top-level keys of the layers that take part: no key is
    dropped and none is invented. *)
Theorem resolve_top_keys (default_config home_config cwd_config : file)
    (d : list (pykey * pyval)) (TECH : pyval) :
  load default_config = Ok (PDict d) →
  resolve default_config home_config cwd_config = Ok TECH →
  is_dict TECH = true
  ∧ ∀ k, k ∈ top_keys TECH
         ↔ ∃ L, L ∈ layers default_config home_config cwd_config ∧ k ∈ top_keys L.
Proof.
  intros Hd Hres. unfold resolve in Hres. rewrite Hd in Hres. simpl in Hres.
  apply bind_Ok in Hres as (T1 & H1 & Hres).
  apply overlay_layer in H1, Hres.
  assert (merge_all (PDict d) (layer home_config ++ layer cwd_config) = Ok TECH) as Hall.
  { rewrite merge_all_app, H1. exact Hres. }
  destruct (merge_all_keys _ _ _ Hall) as [Hdict Hkeys]. split; [done|].
  intros k. rewrite Hkeys. unfold layers. rewrite (load_layer _ _ Hd). split.
  - intros [Hk|(L & HL & HkL)].
    + exists (PDict d). split; [|done]. rewrite !elem_of_app, list_elem_of_singleton. auto.
    + exists L. split; [|done]. rewrite !elem_of_app in *. tauto.
  - intros (L & HL & HkL). rewrite !elem_of_app, list_elem_of_singleton in HL.
    destruct HL as [HL|[HL| ->]]; [right|right|by left];
      exists L; rewrite elem_of_app; auto.
Qed.

Lemma resolve_top_keys_witness :
  let TECH := PDict [(KStr "tech", PDict [(KStr "a", PInt 3); (KStr "b", PInt 2)]);
                     (KStr "name", PStr "generic")] in
  is_dict TECH = true
  ∧ ∀ k, k ∈ top_keys TECH
         ↔ ∃ L, L ∈ layers (yaml_file sample_default) missing_file (yaml_file sample_cwd)
                ∧ k ∈ top_keys L.
Proof.
  intros TECH.
  exact (resolve_top_keys (yaml_file sample_default) missing_file (yaml_file sample_cwd)
           _ TECH eq_refl eq_refl).
Defined.

(** *** Dictionaries keep their keys distinct *)

Lemma distinct_keys_dict_iff d :
  distinct_keys (PDict d) = true
  ↔ NoDup d.*1 ∧ Forall (λ kv, distinct_keys kv.2 = true) d.
Proof.
  simpl. rewrite andb_true_iff, bool_decide_eq_true, forallb_forall, Forall_forall.
  split; intros [Hnd Hall]; (split; [done|]); intros kv Hkv; apply Hall.
  - by apply list_elem_of_In.
  - by apply list_elem_of_In.
Qed.

Lemma dict_set_NoDup k v d : NoDup d.*1 → NoDup (dict_set k v d).*1.
Proof.
  induction d as [|[k2 v2] d IH]; simpl.
  - intros _. apply NoDup_singleton.
  - intros [Hnotin Hnd]%NoDup_cons.
    destruct (decide (k = k2)) as [->|Hne]; simpl.
    + by apply NoDup_cons.
    + apply NoDup_cons. split; [|by apply IH].
      rewrite dict_set_keys. by intros [?|?].
Qed.

Lemma dict_set_values (P : pyval → Prop) k v d :
  P v → Forall (λ kv, P kv.2) d → Forall (λ kv, P kv.2) (dict_set k v d).
Proof.
  intros Hv. induction 1 as [|[k2 v2] d Hx Hd IH]; simpl.
  - by repeat constructor.
  - destruct (decide (k = k2)); by constructor.
Qed.

Lemma dict_get_value (P : pyval → Prop) k v d :
  Forall (λ kv, P kv.2) d → dict_get k d = Some v → P v.
Proof.
  intros Hall Hget. apply dict_get_elem in Hget.
  rewrite Forall_forall in Hall. apply (Hall _ Hget).
Qed.

Lemma merge_with_distinct s : ∀ d r,
  distinct_keys d = true → distinct_keys s = true →
  merge_with d s = Ok r → distinct_keys r = true.
Proof.
  induction s as [ | | | | | |sl IH|sm IH| ] using pyval_nested_ind;
    intros d r Hd Hs Hm; try done.
  - destruct d; try done. by injection Hm as <-.
  - destruct d as [ | | | | | | |dm| ]; try done.
    rewrite merge_with_dict in Hm. apply bind_Ok in Hm as (rm & Hmm & [= <-]).
    apply distinct_keys_dict_iff in Hd as [Hnd Hvals].
    apply distinct_keys_dict_iff in Hs as [_ Hsvals].
    apply distinct_keys_dict_iff.
    clear -IH Hsvals Hmm Hnd Hvals.
    revert dm Hmm Hnd Hvals.
    induction sm as [|[k sv] sm IHsm]; intros dm Hmm Hnd Hvals; simpl in Hmm.
    + by injection Hmm as <-.
    + apply bind_Ok in Hmm as (n & Hn & Hmm).
      apply Forall_cons in IH as [IHsv IH]. apply Forall_cons in Hsvals as [Hsv Hsvals].
      apply (IHsm IH Hsvals _ Hmm); [by apply dict_set_NoDup|].
      apply (dict_set_values (λ v, distinct_keys v = true)); [|done].
      simpl in IHsv, Hsv. unfold merge_entry in Hn. destruct (dict_get k dm) as [dv|] eqn:Hget.
      * destruct (is_container dv && is_container sv).
        -- apply (IHsv dv n); [|done|done].
           by apply (dict_get_value (λ v, distinct_keys v = true) k dv dm).
        -- by injection Hn as <-.
      * by injection Hn as <-.
Qed.

(** X10. Resolution keeps dictionaries well formed: when every layer
    that takes part holds each key once in each of its dictionaries, so
    does the resolved configuration. *)
Theorem resolve_distinct_keys (default_config home_config cwd_config : file)
    (TECH : pyval) :
  resolve default_config home_config cwd_config = Ok TECH →
  Forall (λ L, distinct_keys L = true)
    (layers default_config home_config cwd_config) →
  distinct_keys TECH = true.
Proof.
  intros Hres Hwf. unfold resolve in Hres.
  apply bind_Ok in Hres as (base & Hbase & Hres).
  apply bind_Ok in Hres as (T1 & H1 & Hres).
  apply overlay_layer in H1, Hres.
  unfold layers in Hwf. rewrite (load_layer _ _ Hbase) in Hwf.
  apply Forall_app in Hwf as [Hc Hwf]. apply Forall_app in Hwf as [Hh Hb].
  apply Forall_inv in Hb.
  assert (∀ ovs T R, Forall (λ L, distinct_keys L = true) ovs →
            distinct_keys T = true → merge_all T ovs = Ok R →
            distinct_keys R = true) as Hall.
  { induction ovs as [|L ovs IH]; intros T R Hovs HT Hm; simpl in Hm.
    - by injection Hm as <-.
    - apply Forall_cons in Hovs as [HL Hovs].
      apply bind_Ok in Hm as (T' & HT' & Hm).
      apply (IH T' R Hovs); [|done].
      by apply (merge_with_distinct L T T'). }
  apply (Hall (layer cwd_config) T1 TECH Hc); [|done].
  by apply (Hall (layer home_config) base T1 Hh).
Qed.

Lemma resolve_distinct_keys_witness :
  distinct_keys (PDict [(KStr "tech", PDict [(KStr "a", PInt 3); (KStr "b", PInt 2)]);
                        (KStr "name", PStr "generic")]) = true.
Proof.
  apply (resolve_distinct_keys (yaml_file sample_default) missing_file
           (yaml_file sample_cwd) _ eq_refl).
  repeat constructor.
Defined.

End LayersFacts.

(** ** [config.py], lines 58 to 73: what the annotator leaves alone *)

Module ProvenanceFacts.
Import OmegaConf Config.

Ltac annotate_cases git e :=
  unfold annotate, query_git, try_except, query_revisions, set_info;
  simpl; rewrite !dict_get_set_eq; simpl;
  destruct (git_import git) as [x|];
    [destruct (is_ImportError x)
    |destruct (head_hexsha git (repo_path e)) as [h|x]; simpl;
       [rewrite !dict_get_set_eq; simpl;
        destruct (head_hexsha git (cwd e)) as [h'|x]; simpl
       |];
       try (destruct (is_InvalidGitRepositoryError x); simpl;
            try destruct (is_ImportError x))];
  dict_simpl.

(** X11. Whatever the provider does, the annotator changes no
    top-level key other than [info] and [git_hash_cwd]. *)
Theorem annotate_keeps_other_keys (git : git_provider) (e : env)
    (d : list (pykey * pyval)) (k : string) :
  k ≠ "info" → k ≠ "git_hash_cwd" →
  select [k] (annotate git e (PDict d)).1 = select [k] (PDict d).
Proof.
  intros H1 H2.
  assert (KStr k ≠ KStr "info") by congruence.
  assert (KStr k ≠ KStr "git_hash_cwd") by congruence.
  annotate_cases git e; done.
Qed.

Lemma annotate_keeps_other_keys_witness :
  select ["tech"] (annotate not_a_repository sample_env Layers.sample_default).1
  = select ["tech"] Layers.sample_default.
Proof.
  apply (annotate_keeps_other_keys not_a_repository sample_env _ "tech"); discriminate.
Defined.

(** X12. The [info] section starts from an empty dictionary: whatever
    the layers held under [info], after the annotator it holds nothing
    but [version] and, when the revision was found, [git_hash]. *)
Theorem annotate_resets_info (git : git_provider) (e : env)
    (d : list (pykey * pyval)) (k : string) :
  k ≠ "version" → k ≠ "git_hash" →
  select ["info"; k] (annotate git e (PDict d)).1 = None.
Proof.
  intros H1 H2.
  assert (KStr k ≠ KStr "version") by congruence.
  assert (KStr k ≠ KStr "git_hash") by congruence.
  annotate_cases git e; by rewrite !decide_False.
Qed.

Lemma annotate_resets_info_witness :
  select ["info"; "author"]
    (annotate not_a_repository sample_env
       (PDict [(KStr "info", PDict [(KStr "author", PStr "me")])])).1
  = None.
Proof.
  apply (annotate_resets_info not_a_repository sample_env _ "author"); discriminate.
Defined.

End ProvenanceFacts.

(** ** [config.py], lines 76 to 118: the path table as a whole *)

Module TableFacts.
Import OmegaConf Config.

Lemma bind_Ok_eq {A B} (a : A) (f : A → res B) : (Ok a ≫= f) = f a.
Proof. reflexivity. Qed.

Lemma bind_Raise_eq {A B} (x : exn) (f : A → res B) : (Raise x ≫= f) = Raise x.
Proof. reflexivity. Qed.

Lemma contains_None d k :
  dict_get (KStr k) d = None → cfg_contains (PDict d) k = false.
Proof. intros H. unfold cfg_contains. rewrite H. by apply bool_decide_eq_false_2, is_Some_None. Qed.

Lemma contains_Some d k v :
  dict_get (KStr k) d = Some v → cfg_contains (PDict d) k = true.
Proof. intros H. unfold cfg_contains. rewrite H. by apply bool_decide_eq_true_2. Qed.

Lemma getattr_Some d k v :
  dict_get (KStr k) d = Some v → cfg_getattr (PDict d) k = Ok v.
Proof. intros H. unfold cfg_getattr. by rewrite H. Qed.

(** Reading an entry of a table given as a chain of insertions. *)
Ltac table_lookup :=
  unfold CONFIG_paths;
  rewrite ?lookup_insert_ne by done;
  first [apply lookup_insert_eq | apply lookup_empty].

Ltac no_resources :=
  match goal with
  | |- context [?m !! "gds_resources"] =>
      let H := fresh in
      assert (m !! "gds_resources" = None) as H by table_lookup;
      rewrite H; clear H
  end.

Section Table.
Variable float_repr : Q → string.
Variable container_repr : pyval → string.
Local Abbreviation build_CONFIG := (build_CONFIG float_repr container_repr).

(** The default location of the library of reference files. *)
Definition default_gdslib (e : env) : list string :=
  path_join (repo_path e) "gdslib".

Lemma gdslib_entry_falsy e d :
  truthy (default PNone (dict_get (KStr "gdslib") d)) = false →
  gdslib_entry e (PDict d) = Ok (PPath (default_gdslib e)).
Proof. intros H. unfold gdslib_entry, py_or. simpl. by rewrite H. Qed.

Lemma build_CONFIG_succeeds (e : env) (d : list (pykey * pyval)) :
  dict_get (KStr "mask") d = None →
  truthy (default PNone (dict_get (KStr "gdslib") d)) = false →
  ∃ C, build_CONFIG e (PDict d) = Ok C.
Proof.
  intros Hmask Hlib. unfold Config.build_CONFIG.
  rewrite (contains_None _ _ Hmask), (gdslib_entry_falsy e d Hlib).
  unfold cfg_getattr, py_truediv, py_add_str.
  rewrite !bind_Ok_eq. no_resources. by eexists.
Qed.

(** X13. Without a [mask] section and with no [gdslib] configured, the
    table is built: the build directories lie under the temporary
    directory, the mask file is [notDefined.gds], there is no
    [devices_directory], and [sp] and [gds] lie under the default
    library location. *)
Theorem table_without_mask (e : env) (d : list (pykey * pyval)) :
  dict_get (KStr "mask") d = None →
  truthy (default PNone (dict_get (KStr "gdslib") d)) = false →
  ∃ C, build_CONFIG e (PDict d) = Ok C
       ∧ C !! "build_directory" = Some (PPath (dirpath_build e))
       ∧ C !! "mask_config_directory" = Some (PPath (dirpath_build e))
       ∧ C !! "mask_directory" = Some (PPath (path_join (dirpath_build e) "mask"))
       ∧ C !! "mask_gds"
         = Some (PPath (path_join (path_join (dirpath_build e) "mask") "notDefined.gds"))
       ∧ C !! "devices_directory" = None
       ∧ C !! "gdslib" = Some (PPath (default_gdslib e))
       ∧ C !! "sp" = Some (PPath (path_join (default_gdslib e) "sp"))
       ∧ C !! "gds" = Some (PPath (path_join (default_gdslib e) "gds"))
       ∧ C !! "custom_components"
         = Some (default PNone (dict_get (KStr "custom_components") d)).
Proof.
  intros Hmask Hlib. unfold Config.build_CONFIG.
  rewrite (contains_None _ _ Hmask), (gdslib_entry_falsy e d Hlib).
  unfold cfg_getattr, py_truediv, py_add_str.
  rewrite !bind_Ok_eq. no_resources.
  eexists. split; [reflexivity|].
  repeat split; table_lookup.
Qed.



(** X15. A [mask] section without a string [name] stops the
    construction: with a dictionary whose [name] is absent or not a
    string, line 111 adds [".gds"] to a value that is not a string and
    raises [TypeError]; with a [mask] that is not a dictionary, reading
    its [name] raises [AttributeError]. *)
Theorem table_mask_without_name (e : env) (d : list (pykey * pyval)) (mask : pyval) :
  dict_get (KStr "mask") d = Some mask →
  truthy (default PNone (dict_get (KStr "gdslib") d)) = false →
  (∀ m, mask = PDict m →
     (∀ s, default PNone (dict_get (KStr "name") m) ≠ PStr s) →
     build_CONFIG e (PDict d)
     = Raise (TypeError "unsupported operand type(s) for +"))
  ∧ (is_dict mask = false →
     build_CONFIG e (PDict d) = Raise (AttributeError "name")).
Proof.
  intros Hmask Hlib. unfold Config.build_CONFIG.
  rewrite (contains_Some _ _ _ Hmask), (gdslib_entry_falsy e d Hlib).
  rewrite (getattr_Some _ _ _ Hmask), bind_Ok_eq. split.
  - intros m -> Hname. unfold cfg_getattr, py_truediv.
    rewrite !bind_Ok_eq.
    destruct (default PNone (dict_get (KStr "name") m)) as [ | | | |s| | | | ] eqn:Hn;
      try reflexivity.
    by destruct (Hname s).
  - intros Hnd. destruct mask; try done.
Qed.

(** X16. A [gdslib] configured with a value that is true as a truth
    value and is not a path, as any non-empty string of a YAML file is,
    stops the construction: without a [mask] section, [sp] cannot be
    derived from it and [TypeError] is raised. *)
Theorem table_configured_gdslib (e : env) (d : list (pykey * pyval)) (v : pyval) :
  dict_get (KStr "mask") d = None →
  dict_get (KStr "gdslib") d = Some v →
  truthy v = true → (∀ p, v ≠ PPath p) →
  build_CONFIG e (PDict d)
  = Raise (TypeError "unsupported operand type(s) for /").
Proof.
  intros Hmask Hget Hv Hpath. unfold Config.build_CONFIG, gdslib_entry, py_or.
  rewrite (contains_None _ _ Hmask).
  rewrite (getattr_Some _ _ _ Hget). unfold cfg_getattr.
  rewrite !bind_Ok_eq. rewrite Hv.
  destruct v; try reflexivity. by destruct (Hpath parts).
Qed.

(** X17. A table that is built never has a [gds_resources] entry, so
    the branch of lines 117 and 118 is never taken; its [gdslib] is a
    path, with [sp] and [gds] directly under it. *)
Theorem table_never_has_resources (e : env) (TECH : pyval) (C : gmap string pyval) :
  build_CONFIG e TECH = Ok C →
  C !! "gds_resources" = None
  ∧ ∃ p, C !! "gdslib" = Some (PPath p)
         ∧ C !! "sp" = Some (PPath (path_join p "sp"))
         ∧ C !! "gds" = Some (PPath (path_join p "gds")).
Proof.
  unfold Config.build_CONFIG. intros H.
  apply bind_Ok in H as ([[[mask_name bd] mcd] C0] & H0 & H).
  assert (C0 !! "gds_resources" = None) as HC0.
  { destruct (cfg_contains TECH "mask").
    - apply bind_Ok in H0 as (mask & _ & H0).
      apply bind_Ok in H0 as (mn & _ & H0).
      injection H0 as _ _ _ <-. table_lookup.
    - injection H0 as _ _ _ <-. table_lookup. }
  apply bind_Ok in H as (cc & _ & H).
  apply bind_Ok in H as (g & _ & H).
  apply bind_Ok in H as (sp & Hsp & H).
  apply bind_Ok in H as (gds & Hgds & H).
  apply bind_Ok in H as (mask_file & _ & H).
  destruct g as [ | | | | |p| | | ]; try done.
  injection Hsp as <-. injection Hgds as <-.
  match type of H with
  | context [?m !! "gds_resources"] =>
      assert (m !! "gds_resources" = None) as Hnone
        by (rewrite !lookup_insert_ne by done; exact HC0);
      rewrite Hnone in H
  end.
  injection H as <-. split; [|exists p; repeat split].
  - rewrite !lookup_insert_ne by done. exact HC0.
  - rewrite !lookup_insert_ne by done. apply lookup_insert_eq.
  - rewrite !lookup_insert_ne by done. apply lookup_insert_eq.
  - rewrite !lookup_insert_ne by done. apply lookup_insert_eq.
Qed.
End Table.

Lemma table_without_mask_witness :
  ∃ C, build_CONFIG RouteInfo.plain_repr RouteInfo.plain_container_repr
         sample_env (PDict tech_empty_gdslib) = Ok C
       ∧ C !! "build_directory" = Some (PPath ["/"; "tmp"; "build"])
       ∧ C !! "mask_config_directory" = Some (PPath ["/"; "tmp"; "build"])
       ∧ C !! "mask_directory" = Some (PPath ["/"; "tmp"; "build"; "mask"])
       ∧ C !! "mask_gds" = Some (PPath ["/"; "tmp"; "build"; "mask"; "notDefined.gds"])
       ∧ C !! "devices_directory" = None
       ∧ C !! "gdslib" = Some (PPath ["/"; "lib"; "gdslib"])
       ∧ C !! "sp" = Some (PPath ["/"; "lib"; "gdslib"; "sp"])
       ∧ C !! "gds" = Some (PPath ["/"; "lib"; "gdslib"; "gds"])
       ∧ C !! "custom_components" = Some PNone.
Proof.
  apply (table_without_mask RouteInfo.plain_repr RouteInfo.plain_container_repr
           sample_env tech_empty_gdslib); reflexivity.
Defined.

Definition tech_mask : list (pykey * pyval) :=
  [(KStr "mask", PDict [(KStr "name", PStr "demo")])].
Definition tech_mask_unnamed : list (pykey * pyval) :=
  [(KStr "mask", PDict [(KStr "width", PInt 10)])].
Definition tech_gdslib_string : list (pykey * pyval) :=
  [(KStr "gdslib", PStr "/data/gdslib")].


Lemma table_mask_without_name_witness :
  build_CONFIG RouteInfo.plain_repr RouteInfo.plain_container_repr
    sample_env (PDict tech_mask_unnamed)
  = Raise (TypeError "unsupported operand type(s) for +").
Proof.
  apply (proj1 (table_mask_without_name RouteInfo.plain_repr RouteInfo.plain_container_repr
                  sample_env tech_mask_unnamed (PDict [(KStr "width", PInt 10)])
                  eq_refl eq_refl) [(KStr "width", PInt 10)] eq_refl).
  intros s. discriminate.
Defined.

Lemma table_configured_gdslib_witness :
  build_CONFIG RouteInfo.plain_repr RouteInfo.plain_container_repr
    sample_env (PDict tech_gdslib_string)
  = Raise (TypeError "unsupported operand type(s) for /").
Proof.
  apply (table_configured_gdslib RouteInfo.plain_repr RouteInfo.plain_container_repr
           sample_env tech_gdslib_string (PStr "/data/gdslib"));
    [reflexivity | reflexivity | reflexivity | discriminate].
Defined.

Lemma table_never_has_resources_witness :
  ∃ C, build_CONFIG RouteInfo.plain_repr RouteInfo.plain_container_repr
         sample_env (PDict tech_empty_gdslib) = Ok C
       ∧ C !! "gds_resources" = None
       ∧ ∃ p, C !! "gdslib" = Some (PPath p)
              ∧ C !! "sp" = Some (PPath (path_join p "sp"))
              ∧ C !! "gds" = Some (PPath (path_join p "gds")).
Proof.
  destruct (build_CONFIG_succeeds RouteInfo.plain_repr RouteInfo.plain_container_repr
              sample_env tech_empty_gdslib eq_refl eq_refl) as [C HC].
  exists C. split; [exact HC|].
  exact (table_never_has_resources RouteInfo.plain_repr RouteInfo.plain_container_repr
           sample_env _ C HC).
Defined.

End TableFacts.

(** ** [config.py], lines 135 to 146: the accessor, case by case *)

Module AccessorFacts.
Import OmegaConf Config.

Section Accessor.
Variable float_repr : Q → string.
Variable container_repr : pyval → string.
Variable pformat : gmap string pyval → string.
Variable to_yaml : pyval → string.
Local Abbreviation print_config :=
  (print_config float_repr container_repr pformat to_yaml).
Local Abbreviation str := (py_str float_repr container_repr).

(** X18. A key that the resolved configuration holds with a value that
    is true as a truth value is printed from there, whatever the path
    table holds under the same key. *)
Theorem print_config_prefers_TECH (d : list (pykey * pyval))
    (CONFIG : gmap string pyval) (e : env) (key : string) (v : pyval) :
  key ≠ "" → dict_get (KStr key) d = Some v → truthy v = true →
  print_config (PDict d) CONFIG e (Some key) = Ok [str v].
Proof.
  intros Hkey Hget Hv. rewrite print_config_cases by done.
  rewrite Hget. simpl. by rewrite Hv.
Qed.

(** X19. A key that the resolved configuration lacks, or holds with a
    value that is false as a truth value, is printed from the path
    table when the table holds it with a value that is true as a truth
    value, as every path is. *)
Theorem print_config_falls_back (d : list (pykey * pyval))
    (CONFIG : gmap string pyval) (e : env) (key : string) (c : pyval) :
  key ≠ "" → truthy (default PNone (dict_get (KStr key) d)) = false →
  CONFIG !! key = Some c → truthy c = true →
  print_config (PDict d) CONFIG e (Some key) = Ok [str c].
Proof.
  intros Hkey Hd Hc Hv. rewrite print_config_cases by done.
  rewrite Hd, Hc. simpl. by rewrite Hv.
Qed.


(** X21. On a configuration that is a dictionary the accessor never
    raises: for a non-empty key it prints exactly one line, and for a
    key that neither the configuration nor the path table holds that
    line is the not-found message naming the key and the
    working-directory file. *)
Theorem print_config_never_raises (d : list (pykey * pyval))
    (CONFIG : gmap string pyval) (e : env) (key : string) :
  key ≠ "" →
  (∃ line, print_config (PDict d) CONFIG e (Some key) = Ok [line])
  ∧ (dict_get (KStr key) d = None → CONFIG !! key = None →
     print_config (PDict d) CONFIG e (Some key)
     = Ok ["`" +:+ key +:+ "` key not found in " +:+ path_str (cwd_config e)]).
Proof.
  intros Hkey. rewrite print_config_cases by done. split.
  - by eexists.
  - by intros -> ->.
Qed.
End Accessor.

Definition tech_named : list (pykey * pyval) :=
  [(KStr "name", PStr "generic"); (KStr "debug", PInt 0)].
Definition small_table : gmap string pyval :=
  {[ "name" := PStr "from the table"; "debug" := PPath ["/"; "work"] ]}.

Lemma print_config_prefers_TECH_witness :
  print_config RouteInfo.plain_repr RouteInfo.plain_container_repr (λ _, "") (λ _, "")
    (PDict tech_named) small_table sample_env (Some "name")
  = Ok ["generic"].
Proof.
  apply (print_config_prefers_TECH RouteInfo.plain_repr RouteInfo.plain_container_repr
           (λ _, "") (λ _, "") tech_named small_table sample_env "name" (PStr "generic"));
    [discriminate | reflexivity | reflexivity].
Defined.

Lemma print_config_falls_back_witness :
  print_config RouteInfo.plain_repr RouteInfo.plain_container_repr (λ _, "") (λ _, "")
    (PDict tech_named) small_table sample_env (Some "debug")
  = Ok ["/work"].
Proof.
  apply (print_config_falls_back RouteInfo.plain_repr RouteInfo.plain_container_repr
           (λ _, "") (λ _, "") tech_named small_table sample_env "debug" (PPath ["/"; "work"]));
    [discriminate | reflexivity | vm_compute; reflexivity | reflexivity].
Defined.

Lemma print_config_never_raises_witness :
  (∃ line, print_config RouteInfo.plain_repr RouteInfo.plain_container_repr
             (λ _, "") (λ _, "") (PDict tech_named) ∅ sample_env (Some "missing")
           = Ok [line])
  ∧ (dict_get (KStr "missing") tech_named = None →
     (∅ : gmap string pyval) !! "missing" = None →
     print_config RouteInfo.plain_repr RouteInfo.plain_container_repr
       (λ _, "") (λ _, "") (PDict tech_named) ∅ sample_env (Some "missing")
     = Ok ["`" +:+ "missing" +:+ "` key not found in " +:+ path_str (cwd_config sample_env)]).
Proof.
  apply (print_config_never_raises RouteInfo.plain_repr RouteInfo.plain_container_repr
           (λ _, "") (λ _, "") tech_named ∅ sample_env "missing").
  discriminate.
Defined.

End AccessorFacts.

(** ** [config.py], lines 184 to 189: the derived constants *)

Module ConstantFacts.
Import OmegaConf Config.

(** [TECH.routing.optical.<name>], as lines 187 to 189 read
    [bend_radius], [taper_length] and [wg_expanded_width]. *)
Definition optical_constant (TECH : pyval) (name : string) : res pyval :=
  routing ← cfg_getattr TECH "routing";
  optical ← cfg_getattr routing "optical";
  cfg_getattr optical name.

Definition BEND_RADIUS (TECH : pyval) : res pyval :=
  optical_constant TECH "bend_radius".
Definition TAPER_LENGTH (TECH : pyval) : res pyval :=
  optical_constant TECH "taper_length".
Definition WG_EXPANDED_WIDTH (TECH : pyval) : res pyval :=
  optical_constant TECH "wg_expanded_width".

(** Line 184. *)
Definition GRID_RESOLUTION (TECH : pyval) : res pyval :=
  tech ← cfg_getattr TECH "tech";
  cfg_getattr tech "grid_resolution".

(** X22. The three routing constants are the values found under
    [routing.optical]: a value that is there is copied as it is; a
    name missing from an [optical] dictionary reads as [None] without
    an error; and a configuration without a [routing] section, or
    without [optical] under it, raises [AttributeError]. *)
Theorem optical_constants_read (d : list (pykey * pyval)) :
  (∀ name v, select ["routing"; "optical"; name] (PDict d) = Some v →
     optical_constant (PDict d) name = Ok v)
  ∧ (∀ name o, select ["routing"; "optical"] (PDict d) = Some (PDict o) →
       dict_get (KStr name) o = None →
       optical_constant (PDict d) name = Ok PNone)
  ∧ (∀ name, dict_get (KStr "routing") d = None →
       optical_constant (PDict d) name = Raise (AttributeError "optical"))
  ∧ (∀ name r, dict_get (KStr "routing") d = Some (PDict r) →
       dict_get (KStr "optical") r = None →
       optical_constant (PDict d) name = Raise (AttributeError name))
  ∧ BEND_RADIUS (PDict d) = optical_constant (PDict d) "bend_radius"
  ∧ TAPER_LENGTH (PDict d) = optical_constant (PDict d) "taper_length"
  ∧ WG_EXPANDED_WIDTH (PDict d) = optical_constant (PDict d) "wg_expanded_width".
Proof.
  unfold optical_constant. simpl. repeat split.
  - intros name v Hsel.
    destruct (dict_get (KStr "routing") d) as [[ | | | | | | |r| ]|]; try done. simpl.
    destruct (dict_get (KStr "optical") r) as [[ | | | | | | |o| ]|]; try done. simpl.
    by destruct (dict_get (KStr name) o) as [w|]; [injection Hsel as ->|].
  - intros name o Hsel Hname.
    destruct (dict_get (KStr "routing") d) as [[ | | | | | | |r| ]|]; try done. simpl.
    destruct (dict_get (KStr "optical") r) as [[ | | | | | | |o'| ]|]; try done. simpl.
    injection Hsel as ->. by rewrite Hname.
  - by intros name ->.
  - intros name r -> Hopt. simpl. by rewrite Hopt.
Qed.

Definition tech_routing : list (pykey * pyval) :=
  [(KStr "routing",
    PDict [(KStr "optical",
            PDict [(KStr "bend_radius", PFloat (10 # 1));
                   (KStr "taper_length", PFloat (35 # 1))])])].

Lemma optical_constants_read_witness :
  BEND_RADIUS (PDict tech_routing) = Ok (PFloat (10 # 1))
  ∧ WG_EXPANDED_WIDTH (PDict tech_routing) = Ok PNone
  ∧ TAPER_LENGTH (PDict []) = Raise (AttributeError "optical").
Proof.
  destruct (optical_constants_read tech_routing) as (Hv & Hnone & _ & _ & Hb & _ & Hw).
  destruct (optical_constants_read []) as (_ & _ & Hmiss & _ & _ & Ht & _).
  split; [|split].
  - rewrite Hb. apply Hv. reflexivity.
  - rewrite Hw. eapply Hnone; reflexivity.
  - rewrite Ht. apply Hmiss. reflexivity.
Defined.

End ConstantFacts.

Module GridFacts.
Import Reals Lra Qreals.
Import OmegaConf Config Grid.
Local Open Scope R_scope.



End GridFacts.

(** ** [config.py], lines 171 to 181: [get_git_hash] *)

Module GitHash.

(** How running [git rev-parse HEAD] ends: the process exits with a
    code and what it wrote, or it could not be started. *)
Inductive process :=
  | Exited (code : Z) (stdout : string)
  | NotStarted (x : exn).

Definition called_process_error : exn :=
  OtherError "CalledProcessError" "Command returned non-zero exit status".

Definition is_CalledProcessError (x : exn) : bool :=
  match x with
  | OtherError cls _ => String.eqb cls "CalledProcessError"
  | _ => false
  end.

(** [subprocess.check_output] *)
Definition check_output (p : process) : res string :=
  match p with
  | Exited 0 out => Ok out
  | Exited _ _ => Raise called_process_error
  | NotStarted x => Raise x
  end.

Definition newline : Ascii.ascii := Ascii.ascii_of_nat 10.

(** [s.lstrip(c)], [s.rstrip(c)] and [s.strip(c)] for one character. *)
Fixpoint lstrip (c : Ascii.ascii) (s : string) : string :=
  match s with
  | EmptyString => EmptyString
  | String a s' => if Ascii.eqb a c then lstrip c s' else s
  end.

Fixpoint rstrip (c : Ascii.ascii) (s : string) : string :=
  match s with
  | EmptyString => EmptyString
  | String a s' =>
      match rstrip c s' with
      | EmptyString => if Ascii.eqb a c then EmptyString else String a EmptyString
      | r => String a r
      end
  end.

Definition strip (c : Ascii.ascii) (s : string) : string := rstrip c (lstrip c s).

Definition starts_with (c : Ascii.ascii) (s : string) : bool :=
  match s with
  | EmptyString => false
  | String a _ => Ascii.eqb a c
  end.

Fixpoint ends_with (c : Ascii.ascii) (s : string) : bool :=
  match s with
  | EmptyString => false
  | String a EmptyString => Ascii.eqb a c
  | String _ s' => ends_with c s'
  end.

Section GetGitHash.
(** Decoding the output as UTF-8 is the interpreter's. *)
Variable decode : string → res string.

Definition get_git_hash (p : process) : res string :=
  match (out ← check_output p;
         text ← decode out;
         Ok (strip newline text)) with
  | Raise x => if is_CalledProcessError x then Ok "not_a_git_repo" else Raise x
  | Ok h => Ok h
  end.
End GetGitHash.

Lemma lstrip_no_start c s : starts_with c (lstrip c s) = false.
Proof.
  induction s as [|a s IH]; simpl; [done|].
  destruct (Ascii.eqb a c) eqn:Ha; [done|]. simpl. by rewrite Ha.
Qed.

Lemma rstrip_no_end c s : ends_with c (rstrip c s) = false.
Proof.
  induction s as [|a s IH]; simpl; [done|].
  destruct (rstrip c s) as [|b r] eqn:Hr.
  - destruct (Ascii.eqb a c) eqn:Ha; simpl; [done | by rewrite Ha].
  - exact IH.
Qed.

Lemma rstrip_keeps_start c s :
  starts_with c s = false → starts_with c (rstrip c s) = false.
Proof.
  destruct s as [|a s]; simpl; [done|]. intros Ha.
  destruct (rstrip c s); [by rewrite Ha | done].
Qed.

Lemma rstrip_id c s : ends_with c s = false → rstrip c s = s.
Proof.
  induction s as [|a s IH]; simpl; [done|].
  destruct s as [|b s].
  - simpl. by intros ->.
  - intros Hs. by rewrite (IH Hs).
Qed.

Lemma lstrip_id c s : starts_with c s = false → lstrip c s = s.
Proof. destruct s as [|a s]; simpl; [done | by intros ->]. Qed.

Lemma rstrip_trailing c s : rstrip c (s +:+ String c EmptyString) = rstrip c s.
Proof.
  induction s as [|a s IH]; simpl.
  - by rewrite Ascii.eqb_refl.
  - by rewrite IH.
Qed.

Section Facts.
Variable decode : string → res string.

(** X24. [get_git_hash] turns a failed command into the text
    [not_a_git_repo] and raises nothing for it; a command that could
    not be started, as when git is not installed, and an output that
    does not decode are not caught and leave the function as their
    exception; a successful command gives its output without the
    newlines at either end. *)
Theorem get_git_hash_cases :
  (∀ code out, code ≠ 0 →
     get_git_hash decode (Exited code out) = Ok "not_a_git_repo")
  ∧ (∀ x, is_CalledProcessError x = false →
       get_git_hash decode (NotStarted x) = Raise x)
  ∧ (∀ out x, decode out = Raise x → is_CalledProcessError x = false →
       get_git_hash decode (Exited 0 out) = Raise x)
  ∧ (∀ out text, decode out = Ok text →
       get_git_hash decode (Exited 0 out) = Ok (strip newline text)).
Proof.
  unfold get_git_hash. repeat split.
  - intros code out Hcode. by destruct code.
  - intros x Hx. simpl. by rewrite Hx.
  - intros out x Hd Hx. simpl. rewrite Hd. simpl. by rewrite Hx.
  - intros out text Hd. simpl. by rewrite Hd.
Qed.

(** X25. What a successful [get_git_hash] returns neither begins nor
    ends with a newline, and for an output that is a revision followed
    by one newline it is that revision. *)
Theorem get_git_hash_stripped (out text : string) :
  decode out = Ok text →
  ∃ h, get_git_hash decode (Exited 0 out) = Ok h
       ∧ starts_with newline h = false
       ∧ ends_with newline h = false
       ∧ (∀ revision, text = revision +:+ String newline EmptyString →
            starts_with newline revision = false →
            ends_with newline revision = false →
            h = revision).
Proof.
  intros Hd. exists (strip newline text). unfold get_git_hash. simpl.
  rewrite Hd. simpl. split; [done|]. unfold strip. split; [|split].
  - apply rstrip_keeps_start, lstrip_no_start.
  - apply rstrip_no_end.
  - intros revision -> Hs He. destruct revision as [|a r].
    + reflexivity.
    + rewrite lstrip_id by exact Hs.
      rewrite rstrip_trailing. by apply rstrip_id.
Qed.
End Facts.

Definition sample_revision : string := "3f2a9c".

Lemma get_git_hash_cases_witness :
  get_git_hash Ok (Exited 128 "") = Ok "not_a_git_repo"
  ∧ get_git_hash Ok (NotStarted (FileNotFoundError "git"))
    = Raise (FileNotFoundError "git").
Proof.
  destruct (get_git_hash_cases Ok) as (Hfail & Hstart & _ & _).
  split; [by apply Hfail | by apply Hstart].
Defined.

Lemma get_git_hash_stripped_witness :
  ∃ h, get_git_hash Ok (Exited 0 (sample_revision +:+ String newline EmptyString)) = Ok h
       ∧ starts_with newline h = false
       ∧ ends_with newline h = false
       ∧ (∀ revision,
            sample_revision +:+ String newline EmptyString
            = revision +:+ String newline EmptyString →
            starts_with newline revision = false →
            ends_with newline revision = false →
            h = revision).
Proof.
  exact (get_git_hash_stripped Ok _ _ eq_refl).
Defined.

Example get_git_hash_sample :
  get_git_hash Ok (Exited 0 (sample_revision +:+ String newline EmptyString))
  = Ok sample_revision.
Proof. reflexivity. Qed.

End GitHash.

(** ** [config.py], lines 157 to 160: the order of what is written *)

Module JsonFacts.
Import Json.

(** The string of a string key. *)
Definition skey (k : pykey) : string :=
  match k with
  | KStr s => s
  | _ => ""
  end.

(** Items in the order of their keys. *)
Definition item_le (a b : pykey * pyval) : Prop :=
  String.le (skey a.1) (skey b.1).

#[local] Instance item_le_trans : Transitive item_le.
Proof. intros a b c Hab Hbc. unfold item_le in *. by etrans. Qed.

Lemma ltb_true_le a b : String.ltb a b = true → String.le a b.
Proof.
  unfold String.ltb, String.le, String.leb.
  by destruct (String.compare a b).
Qed.

Lemma ltb_false_le a b : String.ltb a b = false → String.le b a.
Proof.
  unfold String.ltb, String.le, String.leb.
  rewrite (String.compare_antisym b a).
  by destruct (String.compare a b).
Qed.

Lemma insert_sorted_sorted kv l r :
  is_KStr kv.1 = true → Forall (λ kv, is_KStr kv.1 = true) l →
  StronglySorted item_le l → insert_sorted kv l = Ok r →
  StronglySorted item_le r.
Proof.
  intros Hk. revert r. induction l as [|kv' l IH]; intros r Hl Hs Hr; simpl in Hr.
  - injection Hr as <-. by repeat constructor.
  - apply Forall_cons in Hl as [Hk' Hl].
    apply StronglySorted_inv in Hs as [Hs Hall].
    destruct kv as [[x| |] v], kv' as [[y| |] v']; try done. simpl in Hr.
    destruct (String.ltb x y) eqn:Hlt.
    + injection Hr as <-. apply ltb_true_le in Hlt.
      constructor; [by constructor|].
      constructor; [done|].
      eapply Forall_impl; [exact Hall|]. intros z Hz.
      unfold item_le in *. simpl in *. by etrans.
    + apply bind_Ok in Hr as (r' & Hr' & [= <-]). apply ltb_false_le in Hlt.
      constructor; [by apply IH|].
      destruct (insert_sorted_str (KStr x, v) l eq_refl Hl) as (r'' & Hr'' & Hperm).
      rewrite Hr' in Hr''. injection Hr'' as <-.
      rewrite Hperm. by constructor.
Qed.

Lemma sorted_items_sorted d r :
  Forall (λ kv, is_KStr kv.1 = true) d → sorted_items d = Ok r →
  StronglySorted item_le r.
Proof.
  revert r. induction d as [|kv d IH]; intros r Hd Hr; simpl in Hr.
  - injection Hr as <-. constructor.
  - apply Forall_cons in Hd as [Hk Hd].
    apply bind_Ok in Hr as (r' & Hr' & Hr).
    destruct (sorted_items_str d Hd) as (r'' & Hr'' & Hperm).
    rewrite Hr' in Hr''. injection Hr'' as <-.
    apply (insert_sorted_sorted kv r'); [done| |by apply IH|done].
    by rewrite Hperm.
Qed.

Lemma same_key_same_item (l : list (pykey * pyval)) a b :
  NoDup l.*1 → a ∈ l → b ∈ l → a.1 = b.1 → a = b.
Proof.
  induction l as [|x l IH]; simpl; [by intros _ ?%elem_of_nil|].
  intros [Hnotin Hnd]%NoDup_cons Ha Hb Hab.
  apply elem_of_cons in Ha as [->|Ha]; apply elem_of_cons in Hb as [->|Hb].
  - done.
  - destruct Hnotin. rewrite Hab. by apply list_elem_of_fmap_2.
  - destruct Hnotin. rewrite <- Hab. by apply list_elem_of_fmap_2.
  - by apply IH.
Qed.

Lemma skey_inj a b : is_KStr a = true → is_KStr b = true → skey a = skey b → a = b.
Proof. destruct a, b; simpl; try done. by intros _ _ ->. Qed.

(** Two string-keyed dictionaries with the same entries sort to the
    same list of items. *)
Lemma sorted_items_permutation d1 d2 :
  Forall (λ kv, is_KStr kv.1 = true) d1 → NoDup d1.*1 → d1 ≡ₚ d2 →
  sorted_items d1 = sorted_items d2.
Proof.
  intros Hstr Hnd Hperm.
  assert (Forall (λ kv, is_KStr kv.1 = true) d2) as Hstr2 by by rewrite <- Hperm.
  destruct (sorted_items_str d1 Hstr) as (r1 & Hr1 & Hp1).
  destruct (sorted_items_str d2 Hstr2) as (r2 & Hr2 & Hp2).
  rewrite Hr1, Hr2. f_equal.
  apply (StronglySorted_unique_strong item_le).
  - intros a b Ha Hb Hab Hba. rewrite Hp1 in Ha. rewrite Hp2, <- Hperm in Hb.
    apply (same_key_same_item d1); [done..|].
    rewrite Forall_forall in Hstr.
    apply skey_inj; [by apply Hstr | by apply Hstr|].
    by apply (anti_symm String.le).
  - by apply (sorted_items_sorted d1).
  - by apply (sorted_items_sorted d2).
  - by rewrite Hp1, Hp2.
Qed.

(** X26. What is written for a dictionary with string keys does not
    depend on the order in which its entries were inserted: two
    dictionaries with the same entries give the same result, be it a
    tree or an error. *)
Theorem iterencode_insertion_order (fuel : nat) (hook : pyval → res pyval)
    (d1 d2 : list (pykey * pyval)) :
  Forall (λ kv, is_KStr kv.1 = true) d1 → NoDup d1.*1 → d1 ≡ₚ d2 →
  iterencode fuel hook (PDict d1) = iterencode fuel hook (PDict d2).
Proof.
  intros Hstr Hnd Hperm. destruct fuel as [|fuel]; [done|]. simpl.
  by rewrite (sorted_items_permutation d1 d2).
Qed.

Lemma mapM_item_keys (f : pyval → res json) items js :
  Forall (λ kv : pykey * pyval, is_KStr kv.1 = true) items →
  mapM (λ kv : pykey * pyval, k ← key_str kv.1; j ← f kv.2; Ok (k, j)) items = Ok js →
  js.*1 = skey <$> items.*1.
Proof.
  revert js. induction items as [|[k v] items IH]; intros js Hstr H; simpl in H.
  - by injection H as <-.
  - apply Forall_cons in Hstr as [Hk Hstr]. destruct k as [s| |]; try done.
    simpl in H. apply bind_Ok in H as (y & Hy & H).
    apply bind_Ok in Hy as (j & _ & [= <-]).
    apply bind_Ok in H as (js' & Hjs' & [= <-]).
    simpl. f_equal. by apply IH.
Qed.

Lemma sorted_keys (l : list (pykey * pyval)) :
  StronglySorted item_le l → StronglySorted String.le (skey <$> l.*1).
Proof.
  induction 1 as [|x l Hs IH Hall]; simpl; constructor; [done|].
  rewrite <- list_fmap_compose. apply Forall_fmap.
  eapply Forall_impl; [exact Hall|]. by intros [k v] ?.
Qed.

(** X27. For a dictionary with string keys that is written, the keys
    of the object are those of the dictionary, each once as often as it
    is there, in ascending order. *)
Theorem iterencode_keys_ascending (fuel : nat) (hook : pyval → res pyval)
    (d : list (pykey * pyval)) (j : json) :
  Forall (λ kv, is_KStr kv.1 = true) d →
  iterencode fuel hook (PDict d) = Ok j →
  ∃ js, j = JObj js
        ∧ StronglySorted String.le js.*1
        ∧ js.*1 ≡ₚ skey <$> d.*1.
Proof.
  intros Hstr H. destruct fuel as [|fuel]; [done|]. simpl in H.
  apply bind_Ok in H as (items & Hitems & H).
  apply bind_Ok in H as (js & Hjs & [= <-]).
  destruct (sorted_items_str d Hstr) as (r & Hr & Hperm).
  rewrite Hitems in Hr. injection Hr as <-.
  assert (Forall (λ kv, is_KStr kv.1 = true) items) as Hstr' by by rewrite Hperm.
  exists js. split; [done|].
  rewrite (mapM_item_keys _ _ _ Hstr' Hjs). split.
  - apply sorted_keys. by apply (sorted_items_sorted d).
  - by rewrite Hperm.
Qed.

Section Files.
Variable float_repr : Q → string.
Variable container_repr : pyval → string.
Local Abbreviation write_config := (write_config float_repr container_repr).

End Files.

Definition entries_ba : list (pykey * pyval) :=
  [(KStr "b", PInt 1); (KStr "a", PPath ["/"; "lib"])].
Definition entries_ab : list (pykey * pyval) :=
  [(KStr "a", PPath ["/"; "lib"]); (KStr "b", PInt 1)].

Lemma iterencode_insertion_order_witness :
  iterencode 5 plain_hook (PDict entries_ba) = iterencode 5 plain_hook (PDict entries_ab).
Proof.
  apply iterencode_insertion_order.
  - by repeat constructor.
  - simpl. apply NoDup_cons. split; [|apply NoDup_singleton].
    by intros ?%list_elem_of_singleton.
  - apply Permutation_swap.
Defined.

Lemma iterencode_keys_ascending_witness :
  ∃ js, JObj [("a", JStr "/lib"); ("b", JInt 1)] = JObj js
        ∧ StronglySorted String.le js.*1
        ∧ js.*1 ≡ₚ skey <$> entries_ba.*1.
Proof.
  apply (iterencode_keys_ascending 5 plain_hook entries_ba).
  - by repeat constructor.
  - reflexivity.
Defined.

End JsonFacts.
